(** * The crowd-positioning scanner of [scan_enhanced.py]

    A shallow embedding of the asynchronous scan: the decoded JSON values
    the scanner inspects, the HTTP helpers, the per-symbol evaluator
    [process_symbol], the single writer [db_writer] with its
    [INSERT OR REPLACE] statement, and the cooperative interleaving of
    the evaluators under [asyncio.Semaphore(10)].  The two ends of [main]
    are embedded as well: [list_usdt_perp_symbols] over the synchronous
    [http_get], and the lines [export_to_csv] writes.  What SQLite does
    with the values it is handed is part of the model where the script
    depends on it: an [INSERT] refuses a NaN open interest and an
    integer beyond 64 bits, and a NaN in another column reads back as
    [None].

    Python floats are IEEE binary64 numbers: they are modelled by the
    kernel's primitive floats, so that comparisons behave on infinities
    and NaN exactly as they do in the interpreter. *)

From Stdlib Require Import ZArith Floats.
From stdpp Require Import base list strings.

Set Warnings "-inexact-float,-register-all".
Set Default Proof Using "Type".

Open Scope Z_scope.

(** ** Decoded JSON values and the Python operations applied to them *)

(** What [json.loads] produces; [JNull] is Python's [None]. *)
Inductive json : Type :=
| JNull
| JBool (b : bool)
| JInt (z : Z)
| JFloat (x : float)
| JStr (s : string)
| JArr (items : list json)
| JObj (fields : list (string * json)).

Inductive exn : Type :=
| AttributeError | TypeError | ValueError | OverflowError.

(** The three ways a block of statements can end: it falls through with
    a value, it executes [return], or it raises. *)
Inductive outcome (A : Type) : Type :=
| Value (a : A)
| Returned
| Raised (e : exn).
Arguments Value {A} a.
Arguments Returned {A}.
Arguments Raised {A} e.

(** [bool(x)], as used by [not x] and [if x]. *)
Definition truthy (v : json) : bool :=
  match v with
  | JNull => false
  | JBool b => b
  | JInt z => negb (z =? 0)
  | JFloat x => negb (PrimFloat.eqb x 0%float)
  | JStr s => match s with EmptyString => false | _ => true end
  | JArr items => match items with [] => false | _ => true end
  | JObj fields => match fields with [] => false | _ => true end
  end.

Fixpoint assoc (key : string) (fields : list (string * json)) : option json :=
  match fields with
  | [] => None
  | (k, v) :: rest => if String.eqb key k then Some v else assoc key rest
  end.

(** [d.get(key, default)]: only a dict has the method. *)
Definition dict_get (d : json) (key : string) (dflt : json) : outcome json :=
  match d with
  | JObj fields => Value (default dflt (assoc key fields))
  | _ => Raised AttributeError
  end.


(** ** The network, the rows and the coroutines *)

(** One GET of the aiohttp session.  Either the call raises (timeout,
    connection failure, ...) or a response arrives; its body is [None]
    when [r.json()] raises. *)
Record request : Type := {
  url : string;
  params : list (string * json);
  timeout : Z;
}.

Inductive http_result : Type :=
| Http_raises
| Http_response (status : Z) (body : option json).

(** The tuple bound to the fifteen placeholders of the [INSERT]. *)
Record row : Type := {
  run_id : Z;
  symbol : string;
  setup : string;
  timestamp_ms : Z;
  oi_usdt : float;
  top_acc_long : float;
  top_acc_short : float;
  glob_acc_long : float;
  glob_acc_short : float;
  top_pos_long : float;
  top_pos_short : float;
  funding_rate : option float;
  current_price : option float;
  volume_24h : option float;
  volume_2h : option float;
}.

(** Statements of [process_symbol] that touch what the closures share
    (the [nonlocal] counters, the queue, the terminal) and do not
    suspend the coroutine. *)
Inductive action : Type :=
| Scanned_incr
| Progress_report
| Passed_traders_incr
| Queue_put (r : row)
| Print_error (sym : string) (e : exn).

(** A coroutine runs up to its next [await] that suspends it: a GET or a
    sleep. *)
Inductive coro (A : Type) : Type :=
| Ret (a : A)
| Await_get (rq : request) (k : http_result -> coro A)
| Await_sleep (secs : float) (k : coro A)
| Do (a : action) (k : coro A).
Arguments Ret {A} a.
Arguments Await_get {A} rq k.
Arguments Await_sleep {A} secs k.
Arguments Do {A} a k.

Fixpoint bind {A B : Type} (m : coro A) (k : A -> coro B) : coro B :=
  match m with
  | Ret a => k a
  | Await_get rq c => Await_get rq (fun r => bind (c r) k)
  | Await_sleep secs c => Await_sleep secs (bind c k)
  | Do a c => Do a (bind c k)
  end.

(** Sequencing inside a [try] block: a [return] or an exception skips the
    rest of the block. *)
Definition try_bind {A B : Type} (m : coro (outcome A))
    (k : A -> coro (outcome B)) : coro (outcome B) :=
  bind m (fun o =>
    match o with
    | Value a => k a
    | Returned => Ret Returned
    | Raised e => Ret (Raised e)
    end).

Definition await {A : Type} (m : coro A) : coro (outcome A) :=
  bind m (fun a => Ret (Value a)).

Definition act (a : action) : coro (outcome unit) := Do a (Ret (Value tt)).

Definition outcome_map {A B : Type} (g : A -> B) (o : outcome A) : outcome B :=
  match o with
  | Value a => Value (g a)
  | Returned => Returned
  | Raised e => Raised e
  end.

Notation "x <- m ;; k" := (bind m (fun x => k))
  (at level 20, m at level 99, k at level 200, only parsing).
Notation "x <-? m ;; k" := (try_bind m (fun x => k))
  (at level 20, m at level 99, k at level 200, only parsing).
Notation "' p <-? m ;; k" := (try_bind m (fun x => let 'p := x in k))
  (at level 20, p pattern, m at level 99, k at level 200, only parsing).

(** ** The built-in conversions [float(x)] and [int(x)]

    On numbers the conversions are computed: an [int] becomes the nearest
    binary64 number (ties to even) and overflows past the largest finite
    one, a [float] is truncated towards zero.  How the interpreter reads a
    number out of a string is a matter of its own grammar; the two readers
    are taken as given. *)

Section Scanner.

Variable str_to_float : string -> option float.
Variable str_to_int : string -> option Z.

Definition float_of_int (z : Z) : outcome float :=
  match SpecFloat.binary_normalize prec emax z 0 false with
  | SpecFloat.S754_infinity _ => Raised OverflowError
  | sf => Value (SF2Prim sf)
  end.

Definition py_float (v : json) : outcome float :=
  match v with
  | JBool b => Value (if b then 1%float else 0%float)
  | JInt z => float_of_int z
  | JFloat x => Value x
  | JStr s => match str_to_float s with
              | Some x => Value x
              | None => Raised ValueError
              end
  | JNull | JArr _ | JObj _ => Raised TypeError
  end.

Definition int_of_float (x : float) : outcome Z :=
  match Prim2SF x with
  | SpecFloat.S754_zero _ => Value 0
  | SpecFloat.S754_finite sign m e =>
      let magnitude := if 0 <=? e then Z.shiftl (Z.pos m) e
                       else Z.shiftr (Z.pos m) (- e) in
      Value (if sign then - magnitude else magnitude)
  | SpecFloat.S754_infinity _ => Raised OverflowError
  | SpecFloat.S754_nan => Raised ValueError
  end.

Definition py_int (v : json) : outcome Z :=
  match v with
  | JBool b => Value (if b then 1 else 0)
  | JInt z => Value z
  | JFloat x => int_of_float x
  | JStr s => match str_to_int s with
              | Some z => Value z
              | None => Raised ValueError
              end
  | JNull | JArr _ | JObj _ => Raised TypeError
  end.

(** [f]: [float(x)], with every exception turned into [None]. *)
Definition f (x : json) : option float :=
  match py_float x with
  | Value v => Some v
  | _ => None
  end.

(** ** Parameters *)

Definition PERIOD : string := "5m".
Definition MIN_OI_USDT : Z := 2500000.

Definition TOP_ACC_SHORT_MIN : float := 0.65.
Definition GLOBAL_ACC_SHORT_MIN : float := 0.65.
Definition TOP_POS_LONG_MIN : float := 0.45.

Definition TOP_ACC_LONG_MIN : float := 0.65.
Definition GLOBAL_ACC_LONG_MIN : float := 0.65.
Definition TOP_POS_SHORT_MIN : float := 0.45.

Definition SLEEP_S : float := 0.02.

(** [x >= y] and [x < n] on floats.  A float is compared with an [int]
    by value; [MIN_OI_USDT] is below [2^53], so it is its own binary64
    image and the comparison is the one of two floats. *)
Definition float_ge (x y : float) : bool := PrimFloat.leb y x.
Definition float_lt_int (x : float) (n : Z) : bool :=
  PrimFloat.ltb x (SF2Prim (SpecFloat.binary_normalize prec emax n 0 false)).

(** ** The HTTP helpers of the asynchronous path *)

Definition BINANCE_BASE : string := "https://fapi.binance.com".

(** What [http_get_async] returns once the GET is over: the decoded body
    of a 200 response, [None] for any other status and for any exception
    (raised by the call or by [r.json()]). *)
Definition http_get_async_result (r : http_result) : json :=
  match r with
  | Http_response status body =>
      if status =? 200 then default JNull body else JNull
  | Http_raises => JNull
  end.

Definition http_get_async (path : string) (params : list (string * json))
    (timeout : Z) : coro json :=
  Await_get {| url := BINANCE_BASE +:+ path; params := params;
               timeout := timeout |}
    (fun r => Ret (http_get_async_result r)).

(** [data[0]] when [data] is a non-empty list, else [None]. *)
Definition first_item (data : json) : json :=
  match data with
  | JArr (first :: _) => first
  | _ => JNull
  end.

Definition latest_params (sym period : string) : list (string * json) :=
  [("symbol", JStr sym); ("period", JStr period); ("limit", JInt 1)].

Definition latest_async (endpoint sym period : string) : coro json :=
  data <- http_get_async endpoint (latest_params sym period) 20 ;;
  Ret (first_item data).

(** [float(data.get(key)) if key in data else None] on a dict. *)
Definition float_if_present (fields : list (string * json)) (key : string)
  : outcome (option float) :=
  match assoc key fields with
  | Some v => outcome_map Some (py_float v)
  | None => Value None
  end.

(** On a truthy value that is not a dict the two conditional expressions
    end in [(None, None)] whatever the value: [in] raises on a number,
    [get] raises on a list or a string that contains the key, and both
    fields are [None] when neither contains it. *)
Definition premium_data (data : json) : option float * option float :=
  if truthy data then
    match data with
    | JObj fields =>
        match float_if_present fields "lastFundingRate",
              float_if_present fields "markPrice" with
        | Value funding_rate, Value current_price =>
            (funding_rate, current_price)
        | _, _ => (None, None)
        end
    | _ => (None, None)
    end
  else (None, None).

Definition get_premium_data_async (sym : string)
  : coro (option float * option float) :=
  data <- http_get_async "/fapi/v1/premiumIndex" [("symbol", JStr sym)] 20 ;;
  Ret (premium_data data).

(** [float(ticker.get("volume"))] under [ticker and "volume" in ticker],
    and [float(klines[0][7])] under [klines and len(klines) > 0]; each in
    its own [try] that leaves the variable at [None]. *)
Definition ticker_volume (ticker : json) : option float :=
  match ticker with
  | JObj fields =>
      match assoc "volume" fields with
      | Some v => f v
      | None => None
      end
  | _ => None
  end.

(** A Python [str] is a sequence of code points; a string here is the
    sequence of the bytes of its UTF-8 encoding.  [code_points] cuts it
    before every byte that starts a code point, that is every byte but
    those of the form [10xxxxxx]. *)
Definition is_continuation (c : Ascii.ascii) : bool :=
  (128 <=? Ascii.nat_of_ascii c)%nat && (Ascii.nat_of_ascii c <? 192)%nat.

Fixpoint code_points (s : string) : list string :=
  match s with
  | EmptyString => []
  | String c rest =>
      match rest with
      | EmptyString => [String c EmptyString]
      | String d _ =>
          if is_continuation d then
            match code_points rest with
            | first :: others => String c first :: others
            | [] => [String c EmptyString]
            end
          else String c EmptyString :: code_points rest
      end
  end.

Definition kline_volume (klines : json) : option float :=
  match klines with
  | JArr (first :: _) =>
      match first with
      | JArr cells =>
          match cells !! 7%nat with
          | Some v => f v
          | None => None
          end
      | JStr s =>
          match code_points s !! 7%nat with
          | Some c => f (JStr c)
          | None => None
          end
      | _ => None
      end
  | _ => None
  end.

Definition get_volume_data_async (sym : string)
  : coro (option float * option float) :=
  ticker <- http_get_async "/fapi/v1/ticker/24hr" [("symbol", JStr sym)] 20 ;;
  klines <- http_get_async "/fapi/v1/klines"
              [("symbol", JStr sym); ("interval", JStr "2h"); ("limit", JInt 1)]
              20 ;;
  Ret (ticker_volume ticker, kline_volume klines).

(** ** The per-symbol evaluator *)

Definition CROWD_SHORT : string := "CROWD_SHORT__TOP_LONG".
Definition CROWD_LONG : string := "CROWD_LONG__TOP_SHORT".

Definition setup_a (ta_short ga_short tp_long : float) : bool :=
  float_ge ta_short TOP_ACC_SHORT_MIN
  && float_ge ga_short GLOBAL_ACC_SHORT_MIN
  && float_ge tp_long TOP_POS_LONG_MIN.

Definition setup_b (ta_long ga_long tp_short : float) : bool :=
  float_ge ta_long TOP_ACC_LONG_MIN
  && float_ge ga_long GLOBAL_ACC_LONG_MIN
  && float_ge tp_short TOP_POS_SHORT_MIN.

(** [f(d.get(key))] *)
Definition f_get (d : json) (key : string) : outcome (option float) :=
  outcome_map f (dict_get d key JNull).

(** The body of the [try] of [process_symbol]. *)
Definition process_symbol_try (run : Z) (sym : string) : coro (outcome unit) :=
  top_acc <-? await (latest_async
                "/futures/data/topLongShortAccountRatio" sym PERIOD) ;;
  glob_acc <-? await (latest_async
                "/futures/data/globalLongShortAccountRatio" sym PERIOD) ;;
  top_pos <-? await (latest_async
                "/futures/data/topLongShortPositionRatio" sym PERIOD) ;;
  if negb (truthy top_acc) || negb (truthy glob_acc) || negb (truthy top_pos)
  then Ret Returned
  else
  ta_long <-? Ret (f_get top_acc "longAccount") ;;
  ta_short <-? Ret (f_get top_acc "shortAccount") ;;
  ga_long <-? Ret (f_get glob_acc "longAccount") ;;
  ga_short <-? Ret (f_get glob_acc "shortAccount") ;;
  tp_long <-? Ret (f_get top_pos "longAccount") ;;
  tp_short <-? Ret (f_get top_pos "shortAccount") ;;
  match ta_long, ta_short, ga_long, ga_short, tp_long, tp_short with
  | Some ta_long, Some ta_short, Some ga_long, Some ga_short,
    Some tp_long, Some tp_short =>
      ts <-? Ret (dict_get top_acc "timestamp" (JInt 0)) ;;
      ts_ms <-? Ret (py_int ts) ;;
      let a := setup_a ta_short ga_short tp_long in
      let b := setup_b ta_long ga_long tp_short in
      if negb (a || b) then Ret Returned
      else
      _ <-? act Passed_traders_incr ;;
      oi <-? await (latest_async "/futures/data/openInterestHist" sym PERIOD) ;;
      if negb (truthy oi) then Ret Returned
      else
      oi_usdt <-? Ret (f_get oi "sumOpenInterestValue") ;;
      match oi_usdt with
      | None => Ret Returned
      | Some oi_usdt =>
          if float_lt_int oi_usdt MIN_OI_USDT then Ret Returned
          else
          '(funding_rate, current_price) <-? await (get_premium_data_async sym) ;;
          '(volume_24h, volume_2h) <-? await (get_volume_data_async sym) ;;
          let hit (tag : string) :=
            {| run_id := run; symbol := sym; setup := tag;
               timestamp_ms := ts_ms; oi_usdt := oi_usdt;
               top_acc_long := ta_long; top_acc_short := ta_short;
               glob_acc_long := ga_long; glob_acc_short := ga_short;
               top_pos_long := tp_long; top_pos_short := tp_short;
               funding_rate := funding_rate; current_price := current_price;
               volume_24h := volume_24h; volume_2h := volume_2h |} in
          _ <-? (if a then act (Queue_put (hit CROWD_SHORT))
                 else Ret (Value tt)) ;;
          _ <-? (if b then act (Queue_put (hit CROWD_LONG))
                 else Ret (Value tt)) ;;
          Ret (Value tt)
      end
  | _, _, _, _, _, _ => Ret Returned
  end.

(** What [process_symbol] runs while it holds the semaphore.  A [return]
    inside the [try] leaves the function at once; otherwise the pacing
    sleep follows, after the error message when the [try] raised. *)
Definition process_symbol_block (run : Z) (sym : string) : coro unit :=
  Do Scanned_incr
    (Do Progress_report
       (o <- process_symbol_try run sym ;;
        match o with
        | Returned => Ret tt
        | Raised e => Do (Print_error sym e) (Await_sleep SLEEP_S (Ret tt))
        | Value _ => Await_sleep SLEEP_S (Ret tt)
        end)).

(** ** What the closures share, and a coroutine run on its own *)

Inductive printed : Type :=
| Starting (total : nat)
| Progress (scanned total traders_pass rows : nat)
| Error_on (sym : string) (e : exn)
| Done (scanned total traders_pass rows : nat).

Record shared : Type := {
  scanned : nat;
  passed_traders : nat;
  inserted : nat;
  insert_queue : list row;
  stdout : list printed;
}.

Definition perform (total_symbols : nat) (a : action) (s : shared) : shared :=
  match a with
  | Scanned_incr =>
      {| scanned := S (scanned s); passed_traders := passed_traders s;
         inserted := inserted s; insert_queue := insert_queue s;
         stdout := stdout s |}
  | Progress_report =>
      if (scanned s mod 25 =? 0)%nat
      then {| scanned := scanned s; passed_traders := passed_traders s;
              inserted := inserted s; insert_queue := insert_queue s;
              stdout := stdout s ++ [Progress (scanned s) total_symbols
                                       (passed_traders s) (inserted s)] |}
      else s
  | Passed_traders_incr =>
      {| scanned := scanned s; passed_traders := S (passed_traders s);
         inserted := inserted s; insert_queue := insert_queue s;
         stdout := stdout s |}
  | Queue_put r =>
      {| scanned := scanned s; passed_traders := passed_traders s;
         inserted := inserted s; insert_queue := insert_queue s ++ [r];
         stdout := stdout s |}
  | Print_error sym e =>
      {| scanned := scanned s; passed_traders := passed_traders s;
         inserted := inserted s; insert_queue := insert_queue s;
         stdout := stdout s ++ [Error_on sym e] |}
  end.

(** The coroutine run to its end with nothing else scheduled in between:
    every GET is answered by [net].  The run yields the result and what
    the coroutine did, in order. *)
Inductive event : Type :=
| Sent (rq : request)
| Slept (secs : float)
| Did (a : action).

Fixpoint run_to_end {A : Type} (net : request -> http_result) (p : coro A)
    (trace : list event) : A * list event :=
  match p with
  | Ret a => (a, trace)
  | Await_get rq k => run_to_end net (k (net rq)) (trace ++ [Sent rq])
  | Await_sleep secs k => run_to_end net k (trace ++ [Slept secs])
  | Do a k => run_to_end net k (trace ++ [Did a])
  end.

(** One evaluation: what [process_symbol] does for [sym] between taking
    the semaphore and giving it back. *)
Definition evaluation (net : request -> http_result) (run : Z) (sym : string)
  : list event :=
  (run_to_end net (process_symbol_block run sym) []).2.

Definition rows_put (trace : list event) : list row :=
  omap (fun e => match e with Did (Queue_put r) => Some r | _ => None end)
       trace.

Definition requests_sent (trace : list event) : list request :=
  omap (fun e => match e with Sent rq => Some rq | _ => None end) trace.

(** The evaluation went past the ratio thresholds: it counted the symbol
    in [passed_traders]. *)
Definition passed_cheap_filter (trace : list event) : bool :=
  existsb (fun e => match e with
                    | Did Passed_traders_incr => true
                    | _ => false
                    end) trace.

(** ** The table [scan_hits] and the statement [sql]

    A row of [scan_hits] as SQLite holds it and as a [SELECT] hands it
    back.  [run_id], [symbol], [setup], [timestamp_ms] and [oi_usdt] are
    [NOT NULL]; the ten other columns hold a number or [NULL], which reads
    back as [None]. *)

Record stored : Type := {
  db_run_id : Z;
  db_symbol : string;
  db_setup : string;
  db_timestamp_ms : Z;
  db_oi_usdt : float;
  db_top_acc_long : option float;
  db_top_acc_short : option float;
  db_glob_acc_long : option float;
  db_glob_acc_short : option float;
  db_top_pos_long : option float;
  db_top_pos_short : option float;
  db_funding_rate : option float;
  db_current_price : option float;
  db_volume_24h : option float;
  db_volume_2h : option float;
}.

(** What [con.execute(sql, row_data)] raises: [OverflowError] when an
    [int] does not fit SQLite's 64-bit INTEGER, and
    [sqlite3.IntegrityError] when a [NOT NULL] column is handed [NULL]. *)
Inductive sql_error : Type :=
| Int_too_large
| Not_null_failed.

Inductive executed : Type :=
| Accepted (s : stored)
| Refused (e : sql_error).

(** An [int] that the module [sqlite3] can bind. *)
Definition sql_integer (z : Z) : bool :=
  (- 2 ^ 63 <=? z) && (z <? 2 ^ 63).

(** What a REAL column holds for a [float]: [sqlite3] binds NaN as [NULL],
    and SQLite keeps a zero without its sign; every other number,
    infinities included, is kept as it is. *)
Definition sql_real (x : float) : option float :=
  if PrimFloat.is_nan x then None
  else if PrimFloat.eqb x 0%float then Some 0%float
  else Some x.

(** The row the statement writes for [row_data].  The parameters are
    bound first, so that an [int] out of range is reported before the
    statement runs and meets a [NOT NULL] constraint. *)
Definition bind_row (row_data : row) : executed :=
  if sql_integer (run_id row_data) && sql_integer (timestamp_ms row_data)
  then
    match sql_real (oi_usdt row_data) with
    | Some oi =>
        Accepted
          {| db_run_id := run_id row_data; db_symbol := symbol row_data;
             db_setup := setup row_data;
             db_timestamp_ms := timestamp_ms row_data;
             db_oi_usdt := oi;
             db_top_acc_long := sql_real (top_acc_long row_data);
             db_top_acc_short := sql_real (top_acc_short row_data);
             db_glob_acc_long := sql_real (glob_acc_long row_data);
             db_glob_acc_short := sql_real (glob_acc_short row_data);
             db_top_pos_long := sql_real (top_pos_long row_data);
             db_top_pos_short := sql_real (top_pos_short row_data);
             db_funding_rate := funding_rate row_data ≫= sql_real;
             db_current_price := current_price row_data ≫= sql_real;
             db_volume_24h := volume_24h row_data ≫= sql_real;
             db_volume_2h := volume_2h row_data ≫= sql_real |}
    | None => Refused Not_null_failed
    end
  else Refused Int_too_large.

(** A row that [con.execute] accepts. *)
Definition storable (r : row) : Prop := exists s, bind_row r = Accepted s.

(** [PRIMARY KEY (run_id, symbol, setup)] with [INSERT OR REPLACE]: the
    rows that conflict with the new one on the key are deleted and the
    new row is added.  The table is the list of its rows in insertion
    order. *)
Definition primary_key (r : row) : Z * string * string :=
  (run_id r, symbol r, setup r).

Definition stored_key (s : stored) : Z * string * string :=
  (db_run_id s, db_symbol s, db_setup s).

Definition insert_or_replace (s : stored) (table : list stored)
  : list stored :=
  filter (fun old => stored_key old <> stored_key s) table ++ [s].

(** ** [scan_and_store_async]: the evaluators, the writer and the loop

    Each evaluator is a task of the event loop.  It first stands at
    [async with semaphore], then runs its block holding one of the ten
    slots, from one suspension to the next, and gives the slot back when
    the block ends. *)

Inductive task : Type :=
| Acquiring (block : coro unit)
| Holding (rest : coro unit)
| Finished.

(** [db_writer] is in its [while True], past the [break], or over with
    the exception of an [INSERT]: the loop catches
    [asyncio.TimeoutError] only, so the exception leaves the coroutine
    and, through the two [gather]s, [scan_and_store_async]. *)
Inductive writer : Type :=
| Polling
| Stopped
| Crashed (e : sql_error).

Record scan : Type := {
  total_symbols : nat;
  tasks : list task;
  semaphore : nat;
  vars : shared;
  scan_hits : list stored;
  db_writer : writer;
}.

Definition process_symbol (run : Z) (sym : string) : task :=
  Acquiring (process_symbol_block run sym).

Definition start (run : Z) (symbols : list string) : scan :=
  {| total_symbols := length symbols;
     tasks := map (process_symbol run) symbols;
     semaphore := 10;
     vars := {| scanned := 0; passed_traders := 0; inserted := 0;
                insert_queue := [];
                stdout := [Starting (length symbols)] |};
     scan_hits := [];
     db_writer := Polling |}.

(** The statements up to the next suspension are run in one go. *)
Fixpoint advance (total : nat) (p : coro unit) (s : shared)
  : coro unit * shared :=
  match p with
  | Do a k => advance total k (perform total a s)
  | _ => (p, s)
  end.

(** Task [i] goes on with [p]: it stays in the block at its next
    suspension, or leaves it and releases the semaphore. *)
Definition settle (i : nat) (slots : nat) (st : scan)
    (ps : coro unit * shared) : scan :=
  match ps.1 with
  | Ret _ =>
      {| total_symbols := total_symbols st;
         tasks := <[i := Finished]> (tasks st);
         semaphore := S slots; vars := ps.2;
         scan_hits := scan_hits st; db_writer := db_writer st |}
  | p =>
      {| total_symbols := total_symbols st;
         tasks := <[i := Holding p]> (tasks st);
         semaphore := slots; vars := ps.2;
         scan_hits := scan_hits st; db_writer := db_writer st |}
  end.

(** What the event loop does next: it resumes task [i] (handing it
    [answer] if the task awaits a GET), or it gives the writer its turn. *)
Inductive choice : Type :=
| Resume (i : nat) (answer : http_result)
| Writer_turn.

Definition resume (i : nat) (answer : http_result) (st : scan) : option scan :=
  match tasks st !! i with
  | Some (Acquiring block) =>
      match semaphore st with
      | O => None
      | S slots =>
          Some (settle i slots st (advance (total_symbols st) block (vars st)))
      end
  | Some (Holding (Await_get _ k)) =>
      Some (settle i (semaphore st) st
              (advance (total_symbols st) (k answer) (vars st)))
  | Some (Holding (Await_sleep _ k)) =>
      Some (settle i (semaphore st) st
              (advance (total_symbols st) k (vars st)))
  | _ => None
  end.

(** One iteration of the [while True] of [db_writer].  A row is taken
    off the queue and handed to [con.execute]: it is written and counted,
    or the statement raises, writes nothing, and the exception ends the
    writer.  Or the poll times out on the empty queue, and the loop ends
    if [scanned >= total_symbols]. *)
Definition writer_turn (st : scan) : option scan :=
  match db_writer st with
  | Stopped | Crashed _ => None
  | Polling =>
      match insert_queue (vars st) with
      | row_data :: rest =>
          match bind_row row_data with
          | Accepted s =>
              Some {| total_symbols := total_symbols st; tasks := tasks st;
                      semaphore := semaphore st;
                      vars := {| scanned := scanned (vars st);
                                 passed_traders := passed_traders (vars st);
                                 inserted := S (inserted (vars st));
                                 insert_queue := rest;
                                 stdout := stdout (vars st) |};
                      scan_hits := insert_or_replace s (scan_hits st);
                      db_writer := Polling |}
          | Refused e =>
              Some {| total_symbols := total_symbols st; tasks := tasks st;
                      semaphore := semaphore st;
                      vars := {| scanned := scanned (vars st);
                                 passed_traders := passed_traders (vars st);
                                 inserted := inserted (vars st);
                                 insert_queue := rest;
                                 stdout := stdout (vars st) |};
                      scan_hits := scan_hits st;
                      db_writer := Crashed e |}
          end
      | [] =>
          if (total_symbols st <=? scanned (vars st))%nat
          then Some {| total_symbols := total_symbols st; tasks := tasks st;
                       semaphore := semaphore st; vars := vars st;
                       scan_hits := scan_hits st; db_writer := Stopped |}
          else Some st
      end
  end.

Definition step (c : choice) (st : scan) : option scan :=
  match c with
  | Resume i answer => resume i answer st
  | Writer_turn => writer_turn st
  end.

Fixpoint exec (schedule : list choice) (st : scan) : option scan :=
  match schedule with
  | [] => Some st
  | c :: later =>
      match step c st with
      | Some st' => exec later st'
      | None => None
      end
  end.

(** Both halves of the outer [gather] are over. *)
Definition finished (st : scan) : Prop :=
  Forall (fun t => t = Finished) (tasks st) /\ db_writer st = Stopped.

(** An [INSERT] raised: the outer [gather] hands the exception to
    [scan_and_store_async], which ends with it and neither prints the
    last line nor returns.  The evaluators still standing may be resumed
    until [asyncio.run] cancels them; the writer is not. *)
Definition aborted (st : scan) : Prop :=
  exists e, db_writer st = Crashed e.

(** The last line printed and the value returned, once the scan is
    finished. *)
Definition report (st : scan) : printed :=
  Done (scanned (vars st)) (total_symbols st) (passed_traders (vars st))
       (inserted (vars st)).

Definition returned (st : scan) : nat := inserted (vars st).

(** * Properties of one evaluation *)

(** The GET that [latest_async] sends for an endpoint, and the value it
    hands back when the network answers with [net]. *)
Definition latest_request (endpoint sym : string) : request :=
  {| url := BINANCE_BASE +:+ endpoint; params := latest_params sym PERIOD;
     timeout := 20 |}.

Definition fetched (net : request -> http_result) (endpoint sym : string)
  : json :=
  first_item (http_get_async_result (net (latest_request endpoint sym))).

Definition top_acc_of net sym :=
  fetched net "/futures/data/topLongShortAccountRatio" sym.
Definition glob_acc_of net sym :=
  fetched net "/futures/data/globalLongShortAccountRatio" sym.
Definition top_pos_of net sym :=
  fetched net "/futures/data/topLongShortPositionRatio" sym.
Definition oi_of net sym :=
  fetched net "/futures/data/openInterestHist" sym.

(** The three ratio requests, in the order they are sent. *)
Definition ratio_requests (sym : string) : list request :=
  [latest_request "/futures/data/topLongShortAccountRatio" sym;
   latest_request "/futures/data/globalLongShortAccountRatio" sym;
   latest_request "/futures/data/topLongShortPositionRatio" sym].

(** The evaluation went past the open-interest gate: it asked for the
    premium index. *)
Definition passed_oi_gate (trace : list event) : bool :=
  existsb (fun e => match e with
                    | Sent rq =>
                        String.eqb (url rq)
                          (BINANCE_BASE +:+ "/fapi/v1/premiumIndex")
                    | _ => false
                    end) trace.

(** What the two enrichment calls hand back under [net]. *)
Definition premium_of (net : request -> http_result) (sym : string)
  : option float * option float :=
  premium_data
    (http_get_async_result
       (net {| url := BINANCE_BASE +:+ "/fapi/v1/premiumIndex";
               params := [("symbol", JStr sym)]; timeout := 20 |})).

Definition volumes_of (net : request -> http_result) (sym : string)
  : option float * option float :=
  (ticker_volume
     (http_get_async_result
        (net {| url := BINANCE_BASE +:+ "/fapi/v1/ticker/24hr";
                params := [("symbol", JStr sym)]; timeout := 20 |})),
   kline_volume
     (http_get_async_result
        (net {| url := BINANCE_BASE +:+ "/fapi/v1/klines";
                params := [("symbol", JStr sym); ("interval", JStr "2h");
                           ("limit", JInt 1)];
                timeout := 20 |}))).

(** The row for one setup, and the rows for the setups that hold. *)
Definition hit (net : request -> http_result) (run : Z) (sym tag : string)
    (ts_ms : Z) (oi ta_long ta_short ga_long ga_short tp_long tp_short : float)
  : row :=
  {| run_id := run; symbol := sym; setup := tag;
     timestamp_ms := ts_ms; oi_usdt := oi;
     top_acc_long := ta_long; top_acc_short := ta_short;
     glob_acc_long := ga_long; glob_acc_short := ga_short;
     top_pos_long := tp_long; top_pos_short := tp_short;
     funding_rate := (premium_of net sym).1;
     current_price := (premium_of net sym).2;
     volume_24h := (volumes_of net sym).1;
     volume_2h := (volumes_of net sym).2 |}.

Definition hits (net : request -> http_result) (run : Z) (sym : string)
    (ts_ms : Z) (oi ta_long ta_short ga_long ga_short tp_long tp_short : float)
  : list row :=
  (if setup_a ta_short ga_short tp_long
   then [hit net run sym CROWD_SHORT ts_ms oi ta_long ta_short ga_long
           ga_short tp_long tp_short]
   else [])
  ++ (if setup_b ta_long ga_long tp_short
      then [hit net run sym CROWD_LONG ts_ms oi ta_long ta_short ga_long
              ga_short tp_long tp_short]
      else []).

(** The three lenses delivered data, the six fields parsed to the given
    fractions and the timestamp of the top-account lens converted. *)
Definition ratios_parsed (net : request -> http_result) (sym : string)
    (ta_long ta_short ga_long ga_short tp_long tp_short : float) (ts_ms : Z)
  : Prop :=
  (truthy (top_acc_of net sym) = true
   /\ truthy (glob_acc_of net sym) = true
   /\ truthy (top_pos_of net sym) = true)
  /\ (f_get (top_acc_of net sym) "longAccount" = Value (Some ta_long)
      /\ f_get (top_acc_of net sym) "shortAccount" = Value (Some ta_short)
      /\ f_get (glob_acc_of net sym) "longAccount" = Value (Some ga_long)
      /\ f_get (glob_acc_of net sym) "shortAccount" = Value (Some ga_short)
      /\ f_get (top_pos_of net sym) "longAccount" = Value (Some tp_long)
      /\ f_get (top_pos_of net sym) "shortAccount" = Value (Some tp_short))
  /\ exists ts,
       dict_get (top_acc_of net sym) "timestamp" (JInt 0) = Value ts
       /\ py_int ts = Value ts_ms.

(** The open interest came back, parsed, and is not below the minimum. *)
Definition oi_admitted (net : request -> http_result) (sym : string) : Prop :=
  exists oi,
    f_get (oi_of net sym) "sumOpenInterestValue" = Value (Some oi)
    /\ float_lt_int oi MIN_OI_USDT = false.

(** Two rows that agree on every column but [setup]. *)
Definition same_but_setup (r1 r2 : row) : Prop :=
  run_id r1 = run_id r2 /\ symbol r1 = symbol r2
  /\ timestamp_ms r1 = timestamp_ms r2 /\ oi_usdt r1 = oi_usdt r2
  /\ top_acc_long r1 = top_acc_long r2 /\ top_acc_short r1 = top_acc_short r2
  /\ glob_acc_long r1 = glob_acc_long r2
  /\ glob_acc_short r1 = glob_acc_short r2
  /\ top_pos_long r1 = top_pos_long r2 /\ top_pos_short r1 = top_pos_short r2
  /\ funding_rate r1 = funding_rate r2 /\ current_price r1 = current_price r2
  /\ volume_24h r1 = volume_24h r2 /\ volume_2h r1 = volume_2h r2.

(** [x >= n] for a float and an [int]. *)
Definition float_ge_int (x : float) (n : Z) : bool :=
  PrimFloat.leb (SF2Prim (SpecFloat.binary_normalize prec emax n 0 false)) x.

(** ** Observations on the state of a scan *)

(** A task is in its network-bound phase while it holds the semaphore. *)
Definition in_block (t : task) : bool :=
  match t with
  | Holding _ => true
  | _ => false
  end.

Definition started (t : task) : bool :=
  match t with
  | Acquiring _ => false
  | _ => true
  end.

Fixpoint count (p : task -> bool) (ts : list task) : nat :=
  match ts with
  | [] => O
  | t :: rest => ((if p t then 1 else 0) + count p rest)%nat
  end.

(** How many evaluations are inside [async with semaphore] right now. *)
Definition in_flight (st : scan) : nat := count in_block (tasks st).

(** The coroutine never executes [scanned += 1]. *)
Fixpoint quiet {A : Type} (p : coro A) : Prop :=
  match p with
  | Ret _ => True
  | Await_get _ k => forall r, quiet (k r)
  | Await_sleep _ k => quiet k
  | Do a k => a <> Scanned_incr /\ quiet k
  end.

(** The coroutine stands at an [await]. *)
Definition suspended {A : Type} (p : coro A) : Prop :=
  match p with
  | Await_get _ _ | Await_sleep _ _ => True
  | _ => False
  end.

(** A task of the scan: not yet admitted, it is about to count itself
    once in [scanned]; admitted, it stands at an [await] and will not
    count itself again. *)
Definition task_ok (t : task) : Prop :=
  match t with
  | Acquiring block => exists k, block = Do Scanned_incr k /\ quiet k
  | Holding rest => suspended rest /\ quiet rest
  | Finished => True
  end.

(** What every state of a scan satisfies: [total_symbols] is the number of
    tasks, and [scanned] counts the tasks that have been admitted. *)
Definition scan_ok (st : scan) : Prop :=
  total_symbols st = length (tasks st)
  /\ scanned (vars st) = count started (tasks st)
  /\ Forall task_ok (tasks st).

(** What is left for the writer once every evaluation is over. *)
Definition writer_turns_left (st : scan) : nat :=
  match db_writer st with
  | Stopped | Crashed _ => O
  | Polling => S (length (insert_queue (vars st)))
  end.

(** ** Worked inputs

    Readers for the strings the worked inputs contain: plain decimals of
    at most fifteen digits, on which the quotient of the two integers is
    rounded once, as [float] rounds the decimal; and plain digit strings
    for [int].  They stand for the interpreter's readers on those strings
    only. *)

Definition digit_of (c : Ascii.ascii) : option Z :=
  let n := Z.of_nat (Ascii.nat_of_ascii c) in
  if (48 <=? n) && (n <=? 57) then Some (n - 48) else None.

Fixpoint read_digits (s : string) (acc : Z) : option Z :=
  match s with
  | EmptyString => Some acc
  | String c rest =>
      match digit_of c with
      | Some d => read_digits rest (10 * acc + d)
      | None => None
      end
  end.

Definition read_int (s : string) : option Z :=
  match s with
  | EmptyString => None
  | _ => read_digits s 0
  end.

Fixpoint split_at_dot (s : string) : string * option string :=
  match s with
  | EmptyString => (EmptyString, None)
  | String c rest =>
      if (Ascii.nat_of_ascii c =? 46)%nat then (EmptyString, Some rest)
      else let (whole, frac) := split_at_dot rest in (String c whole, frac)
  end.

Definition exact_float (z : Z) : float :=
  SF2Prim (SpecFloat.binary_normalize prec emax z 0 false).

Definition read_decimal (s : string) : option float :=
  let (whole, frac) := split_at_dot s in
  let frac := default EmptyString frac in
  if (String.length whole + String.length frac <=? 15)%nat then
    match read_int whole, read_digits frac 0 with
    | Some w, Some fr =>
        let scale := 10 ^ Z.of_nat (String.length frac) in
        Some (PrimFloat.div (exact_float (w * scale + fr)) (exact_float scale))
    | _, _ => None
    end
  else None.

(** A network that answers 200 with the body listed for the URL and
    fails on every other request. *)
Definition serve (routes : list (string * json)) (rq : request)
  : http_result :=
  match assoc (url rq) routes with
  | Some body => Http_response 200 (Some body)
  | None => Http_raises
  end.

Definition snapshot (long short : string) (ts : Z) : json :=
  JArr [JObj [("symbol", JStr "AAAUSDT"); ("longAccount", JStr long);
              ("shortAccount", JStr short); ("timestamp", JInt ts)]].

Definition open_interest (value : json) : json :=
  JArr [JObj [("symbol", JStr "AAAUSDT"); ("sumOpenInterestValue", value)]].

Definition TOP_ACC_URL : string :=
  BINANCE_BASE +:+ "/futures/data/topLongShortAccountRatio".
Definition GLOB_ACC_URL : string :=
  BINANCE_BASE +:+ "/futures/data/globalLongShortAccountRatio".
Definition TOP_POS_URL : string :=
  BINANCE_BASE +:+ "/futures/data/topLongShortPositionRatio".
Definition OI_URL : string :=
  BINANCE_BASE +:+ "/futures/data/openInterestHist".

(** The crowd is short, the top traders are not: Setup A only. *)
Definition net_crowd_short : request -> http_result :=
  serve [(TOP_ACC_URL, snapshot "0.30" "0.70" 1700000000000);
         (GLOB_ACC_URL, snapshot "0.30" "0.70" 1700000000001);
         (TOP_POS_URL, snapshot "0.50" "0.50" 1700000000002);
         (OI_URL, open_interest (JStr "5000000.00"))].

(** Fractions that satisfy both setups, and an open interest exactly at
    the minimum. *)
Definition net_both_setups : request -> http_result :=
  serve [(TOP_ACC_URL, snapshot "0.70" "0.70" 1700000000000);
         (GLOB_ACC_URL, snapshot "0.70" "0.70" 1700000000001);
         (TOP_POS_URL, snapshot "0.50" "0.50" 1700000000002);
         (OI_URL, open_interest (JStr "2500000"))].

(** As [net_crowd_short], with an open interest that is not a number. *)
Definition net_nan_open_interest : request -> http_result :=
  serve [(TOP_ACC_URL, snapshot "0.30" "0.70" 1700000000000);
         (GLOB_ACC_URL, snapshot "0.30" "0.70" 1700000000001);
         (TOP_POS_URL, snapshot "0.50" "0.50" 1700000000002);
         (OI_URL, open_interest (JFloat PrimFloat.nan))].

(** As [net_crowd_short], the top-account snapshot without "timestamp". *)
Definition net_no_timestamp : request -> http_result :=
  serve [(TOP_ACC_URL,
          JArr [JObj [("longAccount", JStr "0.30");
                      ("shortAccount", JStr "0.70")]]);
         (GLOB_ACC_URL, snapshot "0.30" "0.70" 1700000000001);
         (TOP_POS_URL, snapshot "0.50" "0.50" 1700000000002);
         (OI_URL, open_interest (JStr "5000000.00"))].

(** Every request fails. *)
Definition net_down : request -> http_result := serve [].

(** As [net_crowd_short], the timestamp of the top-account snapshot being
    [null]. *)
Definition net_null_timestamp : request -> http_result :=
  serve [(TOP_ACC_URL,
          JArr [JObj [("longAccount", JStr "0.30");
                      ("shortAccount", JStr "0.70");
                      ("timestamp", JNull)]]);
         (GLOB_ACC_URL, snapshot "0.30" "0.70" 1700000000001);
         (TOP_POS_URL, snapshot "0.50" "0.50" 1700000000002);
         (OI_URL, open_interest (JStr "5000000.00"))].

(** As [net_crowd_short], with a premium index whose mark price is
    [null]. *)
Definition net_null_mark_price : request -> http_result :=
  serve [(TOP_ACC_URL, snapshot "0.30" "0.70" 1700000000000);
         (GLOB_ACC_URL, snapshot "0.30" "0.70" 1700000000001);
         (TOP_POS_URL, snapshot "0.50" "0.50" 1700000000002);
         (OI_URL, open_interest (JStr "5000000.00"));
         (BINANCE_BASE +:+ "/fapi/v1/premiumIndex",
          JObj [("symbol", JStr "AAAUSDT"); ("markPrice", JNull);
                ("lastFundingRate", JStr "0.0001")])].

(** Accounts and positions evenly split: neither setup holds. *)
Definition net_no_setup : request -> http_result :=
  serve [(TOP_ACC_URL, snapshot "0.50" "0.50" 1700000000000);
         (GLOB_ACC_URL, snapshot "0.50" "0.50" 1700000000001);
         (TOP_POS_URL, snapshot "0.50" "0.50" 1700000000002);
         (OI_URL, open_interest (JStr "5000000.00"))].

(** The one task of a scan of one instrument, resumed four times while
    every request fails: admitted, then the three ratio requests. *)
Definition schedule_down : list choice :=
  [Resume 0 Http_raises; Resume 0 Http_raises; Resume 0 Http_raises;
   Resume 0 Http_raises].

Definition example_row (tag : string) (ts : Z) (oi : float) : row :=
  {| run_id := 1; symbol := "AAAUSDT"; setup := tag;
     timestamp_ms := ts; oi_usdt := oi;
     top_acc_long := 0.3; top_acc_short := 0.7;
     glob_acc_long := 0.3; glob_acc_short := 0.7;
     top_pos_long := 0.5; top_pos_short := 0.5;
     funding_rate := None; current_price := None;
     volume_24h := None; volume_2h := None |}.



(** An answer to "/fapi/v1/exchangeInfo": two instruments that trade, one
    that is settling between them, and a quarterly contract. *)
Definition instrument (name contract quote status : string) : json :=
  JObj [("symbol", JStr name); ("contractType", JStr contract);
        ("quoteAsset", JStr quote); ("status", JStr status)].

Definition exchange_info : http_result :=
  Http_response 200
    (Some (JObj [("timezone", JStr "UTC");
                 ("symbols",
                  JArr [instrument "AAAUSDT" "PERPETUAL" "USDT" "TRADING";
                        instrument "BBBUSDT" "PERPETUAL" "USDT" "SETTLING";
                        instrument "CCCUSDT" "CURRENT_QUARTER" "USDT"
                          "TRADING";
                        instrument "DDDUSDT" "PERPETUAL" "USDT" "TRADING"])])).

(** The same answer with a tradable entry that has lost its "symbol". *)
Definition exchange_info_without_symbol : http_result :=
  Http_response 200
    (Some (JObj [("symbols",
                  JArr [instrument "AAAUSDT" "PERPETUAL" "USDT" "TRADING";
                        JObj [("contractType", JStr "PERPETUAL");
                              ("quoteAsset", JStr "USDT");
                              ("status", JStr "TRADING")]])])).

(** ** More observations on one evaluation *)

Definition oi_request (sym : string) : request :=
  latest_request "/futures/data/openInterestHist" sym.

Definition premium_request (sym : string) : request :=
  {| url := BINANCE_BASE +:+ "/fapi/v1/premiumIndex";
     params := [("symbol", JStr sym)]; timeout := 20 |}.

Definition ticker_request (sym : string) : request :=
  {| url := BINANCE_BASE +:+ "/fapi/v1/ticker/24hr";
     params := [("symbol", JStr sym)]; timeout := 20 |}.

Definition klines_request (sym : string) : request :=
  {| url := BINANCE_BASE +:+ "/fapi/v1/klines";
     params := [("symbol", JStr sym); ("interval", JStr "2h");
                ("limit", JInt 1)];
     timeout := 20 |}.

(** How every evaluation begins: the counter, the progress line and the
    three ratio requests. *)
Definition ratio_stage (sym : string) : list event :=
  [Did Scanned_incr; Did Progress_report] ++ map Sent (ratio_requests sym).

Definition sleeps (trace : list event) : list float :=
  omap (fun e => match e with Slept secs => Some secs | _ => None end) trace.

Definition errors_printed (trace : list event) : list (string * exn) :=
  omap (fun e => match e with
                 | Did (Print_error sym e) => Some (sym, e)
                 | _ => None
                 end) trace.

(** ** One evaluator of a scan, resumed under a network *)

(** The answers that [net] hands a coroutine, one for each suspension; a
    sleep is resumed without an answer, [Http_raises] stands in. *)
Fixpoint answers {A : Type} (net : request -> http_result) (p : coro A)
  : list http_result :=
  match p with
  | Ret _ => []
  | Await_get rq k => net rq :: answers net (k (net rq))
  | Await_sleep _ k => Http_raises :: answers net k
  | Do _ k => answers net k
  end.

(** The shared variables once the coroutine has run to its end under
    [net], no other task writing them in between. *)
Fixpoint run_vars {A : Type} (net : request -> http_result) (total : nat)
    (p : coro A) (s : shared) : shared :=
  match p with
  | Ret _ => s
  | Await_get rq k => run_vars net total (k (net rq)) s
  | Await_sleep _ k => run_vars net total k s
  | Do a k => run_vars net total k (perform total a s)
  end.

(** A scan of one instrument in which the writer polls as soon as the
    evaluator stands at its first request: the evaluator is admitted,
    the poll of the writer times out, and the evaluator is then resumed
    to its end with the answers of [net]. *)
Definition schedule_writer_first (net : request -> http_result) (run : Z)
    (sym : string) : list choice :=
  Resume 0 Http_raises :: Writer_turn
  :: map (Resume 0) (answers net (process_symbol_block run sym)).

(** The same scan with the writer kept waiting until the evaluator is
    over; it then polls [turns] times. *)
Definition schedule_writer_last (net : request -> http_result) (run : Z)
    (sym : string) (turns : nat) : list choice :=
  Resume 0 Http_raises
  :: map (Resume 0) (answers net (process_symbol_block run sym))
  ++ repeat Writer_turn turns.

(** ** What the evaluators of a scan have done so far *)

(** Where an evaluator stands: it has not counted its instrument in
    [passed_traders] yet; or it has, and has enqueued one row for each of
    the setups listed. *)
Inductive progress : Type :=
| Not_passed
| Passed (done : list string).

Definition has_passed (g : progress) : bool :=
  match g with
  | Not_passed => false
  | Passed _ => true
  end.

Definition setups_put (g : progress) : list string :=
  match g with
  | Not_passed => []
  | Passed done => done
  end.

Definition valid_progress (g : progress) : Prop :=
  NoDup (setups_put g)
  /\ Forall (fun tag => tag = CROWD_SHORT \/ tag = CROWD_LONG) (setups_put g).

(** From [g] on, the coroutine counts its instrument in [passed_traders]
    at most once and before any row; the rows it enqueues are rows of
    [run] and [sym] with one of the two setups, and no setup comes
    twice. *)
Fixpoint may_do {A : Type} (run : Z) (sym : string) (p : coro A)
    (g : progress) : Prop :=
  match p with
  | Ret _ => True
  | Await_get _ k => forall r, may_do run sym (k r) g
  | Await_sleep _ k => may_do run sym k g
  | Do a k =>
      match a with
      | Passed_traders_incr =>
          match g with
          | Not_passed => may_do run sym k (Passed [])
          | Passed _ => False
          end
      | Queue_put r =>
          match g with
          | Not_passed => False
          | Passed done =>
              run_id r = run /\ symbol r = sym
              /\ (setup r = CROWD_SHORT \/ setup r = CROWD_LONG)
              /\ setup r ∉ done
              /\ may_do run sym k (Passed (done ++ [setup r]))
          end
      | _ => may_do run sym k g
      end
  end.

(** A task of the scan next to its instrument and its progress. *)
Definition task_does (run : Z) (t : task) (x : string * progress) : Prop :=
  valid_progress x.2
  /\ match t with
     | Acquiring block => x.2 = Not_passed /\ may_do run x.1 block Not_passed
     | Holding rest => may_do run x.1 rest x.2
     | Finished => True
     end.

(** The primary keys of the rows an evaluator has enqueued. *)
Definition keys_put (run : Z) (x : string * progress)
  : list (Z * string * string) :=
  map (fun tag => (run, x.1, tag)) (setups_put x.2).

(** A row of this scan: of its run, for one of its instruments, with one
    of the two setups. *)
Definition row_of_scan (run : Z) (symbols : list string) (r : row) : Prop :=
  run_id r = run /\ symbol r ∈ symbols
  /\ (setup r = CROWD_SHORT \/ setup r = CROWD_LONG).

Definition stored_of_scan (run : Z) (symbols : list string) (s : stored)
  : Prop :=
  db_run_id s = run /\ db_symbol s ∈ symbols
  /\ (db_setup s = CROWD_SHORT \/ db_setup s = CROWD_LONG).

(** The state of a scan agrees with the progress [gs] of its evaluators:
    [passed_traders] counts the evaluators that passed, the rows written
    and waiting are among the rows enqueued, and when the instruments are
    distinct these rows are in [scan_hits] or in the queue, at most one
    per key. *)
Definition accounted (run : Z) (symbols : list string) (st : scan)
    (gs : list (string * progress)) : Prop :=
  map fst gs = symbols
  /\ Forall2 (task_does run) (tasks st) gs
  /\ passed_traders (vars st)
     = sum_list (map (fun x => Nat.b2n (has_passed x.2)) gs)
  /\ (inserted (vars st) + length (insert_queue (vars st))
      <= sum_list (map (fun x => length (setups_put x.2)) gs))%nat
  /\ (length (scan_hits st) <= inserted (vars st))%nat
  /\ Forall (stored_of_scan run symbols) (scan_hits st)
  /\ Forall (row_of_scan run symbols) (insert_queue (vars st))
  /\ (NoDup symbols ->
      length (scan_hits st) = inserted (vars st)
      /\ map stored_key (scan_hits st)
         ++ map primary_key (insert_queue (vars st))
         ⊆+ concat (map (keys_put run) gs)).

(** ** The synchronous GET and [list_usdt_perp_symbols] *)

(** What the synchronous path raises. *)
Inductive error : Type :=
| RequestException
| HTTPError (status : Z)
| JSONDecodeError
| KeyError (key : string)
| Builtin (e : exn).

Inductive raising (A : Type) : Type :=
| Returns (a : A)
| Raises (e : error).
#[global] Arguments Returns {A} a.
#[global] Arguments Raises {A} e.

(** [http_get].  [session.get] raises, or hands back the response the
    adapter ends on; [raise_for_status] raises on a status from 400 to
    599; [r.json()] raises when the body is no JSON. *)
Definition http_get (r : http_result) : raising json :=
  match r with
  | Http_raises => Raises RequestException
  | Http_response status body =>
      if (400 <=? status) && (status <? 600) then Raises (HTTPError status)
      else match body with
           | Some data => Returns data
           | None => Raises JSONDecodeError
           end
  end.

(** [v == s] for a decoded value and a string. *)
Definition equals_str (v : json) (s : string) : bool :=
  match v with
  | JStr t => String.eqb t s
  | _ => false
  end.

(** The condition of the [if], on the fields of the dict [s]; a missing
    key reads as [None]. *)
Definition tradable (fields : list (string * json)) : bool :=
  equals_str (default JNull (assoc "contractType" fields)) "PERPETUAL"
  && equals_str (default JNull (assoc "quoteAsset" fields)) "USDT"
  && equals_str (default JNull (assoc "status" fields)) "TRADING".

(** The body of the loop for the element [s], [out] being the list so
    far: only a dict has [get], and [s["symbol"]] raises when the key is
    missing. *)
Definition loop_body (s : json) (out : list json) : raising (list json) :=
  match s with
  | JObj fields =>
      if tradable fields then
        match assoc "symbol" fields with
        | Some v => Returns (out ++ [v])
        | None => Raises (KeyError "symbol")
        end
      else Returns out
  | _ => Raises (Builtin AttributeError)
  end.

Fixpoint for_each (items : list json) (out : list json)
  : raising (list json) :=
  match items with
  | [] => Returns out
  | s :: rest =>
      match loop_body s out with
      | Returns out' => for_each rest out'
      | Raises e => Raises e
      end
  end.

(** What [for s in v] goes through: the items of a list, the keys of a
    dict, the characters of a string; anything else is not iterable. *)
Definition iter (v : json) : raising (list json) :=
  match v with
  | JArr items => Returns items
  | JObj fields => Returns (map (fun kv => JStr kv.1) fields)
  | JStr s => Returns (map JStr (code_points s))
  | _ => Raises (Builtin TypeError)
  end.

(** [list_usdt_perp_symbols], given what the GET of
    "/fapi/v1/exchangeInfo" ends on. *)
Definition list_usdt_perp_symbols (r : http_result) : raising (list json) :=
  match http_get r with
  | Raises e => Raises e
  | Returns (JObj fields) =>
      match iter (default (JArr []) (assoc "symbols" fields)) with
      | Raises e => Raises e
      | Returns items => for_each items []
      end
  | Returns _ => Raises (Builtin AttributeError)
  end.

(** The symbol an entry of the exchange information contributes to the
    list. *)
Definition listed_symbol (s : json) : option json :=
  match s with
  | JObj fields => if tradable fields then assoc "symbol" fields else None
  | _ => None
  end.

(** An entry on which the body of the loop raises. *)
Definition bad_entry (s : json) : Prop :=
  match s with
  | JObj fields => tradable fields = true /\ assoc "symbol" fields = None
  | _ => True
  end.

(** ** [export_to_csv] *)

Definition FUNDING_CONFIRM_THRESHOLD : float := 0.01.

Definition should_highlight (setup : string) (funding_rate : option float)
  : bool :=
  match funding_rate with
  | None => false
  | Some rate =>
      if String.eqb setup "CROWD_SHORT__TOP_LONG"
         && PrimFloat.ltb rate (PrimFloat.opp FUNDING_CONFIRM_THRESHOLD)
      then true
      else if String.eqb setup "CROWD_LONG__TOP_SHORT"
              && PrimFloat.ltb FUNDING_CONFIRM_THRESHOLD rate
      then true
      else false
  end.

(** The lines of the file, by kind: the header, an empty row, the rule of
    box-drawing characters, the title of a section, the title of its
    highlighted rows, "--- Other Signals ---", and the line
    [format_row(row, highlight)] of a signal.  The signal is kept as the
    row of [scan_hits] the [SELECT] read it from. *)
Inductive csv_line : Type :=
| Header
| Blank
| Rule
| Section_title (tag : string)
| Confirms_title (tag : string)
| Other_signals
| Data (r : stored) (highlight : bool).

(** [format_row] multiplies each of the six fractions by 100: on a
    fraction that reads back as [None] the product raises [TypeError].
    The open interest is never [None], and the four last columns are
    written as "N/A" when they are. *)
Definition formattable (r : stored) : bool :=
  match db_top_acc_long r, db_top_acc_short r, db_glob_acc_long r,
        db_glob_acc_short r, db_top_pos_long r, db_top_pos_short r with
  | Some _, Some _, Some _, Some _, Some _, Some _ => true
  | _, _, _, _, _, _ => false
  end.

Definition format_row (r : stored) (highlight : bool) : raising csv_line :=
  if formattable r then Returns (Data r highlight)
  else Raises (Builtin TypeError).

Definition highlighted (signals : list stored) : list stored :=
  filter (fun r => should_highlight (db_setup r) (db_funding_rate r) = true)
    signals.

Definition regular (signals : list stored) : list stored :=
  filter (fun r => should_highlight (db_setup r) (db_funding_rate r) = false)
    signals.

(** The lines written to the file so far and, once a statement has
    raised, its exception: the [with] closes the file on what was
    written, and nothing more is. *)
Definition writing : Type := list csv_line * option error.

Definition and_then (w : writing) (k : list csv_line -> writing) : writing :=
  match w with
  | (file, None) => k file
  | (file, Some e) => (file, Some e)
  end.

Definition writerows (lines file : list csv_line) : writing :=
  (file ++ lines, None).

(** [for row in signals: writer.writerow(format_row(row, highlight))] *)
Fixpoint write_signals (highlight : bool) (signals : list stored)
    (file : list csv_line) : writing :=
  match signals with
  | [] => (file, None)
  | r :: rest =>
      match format_row r highlight with
      | Returns line => write_signals highlight rest (file ++ [line])
      | Raises e => (file, Some e)
      end
  end.

(** One section of the file: nothing when the query returned no signal;
    else [lead] empty rows, the title between two rules, the highlighted
    signals under their own title, and the others. *)
Definition write_section (tag : string) (lead : list csv_line)
    (signals : list stored) (file : list csv_line) : writing :=
  match signals with
  | [] => (file, None)
  | _ =>
      and_then (writerows (lead ++ [Rule; Section_title tag; Rule; Blank]) file)
        (fun file =>
      and_then
        match highlighted signals with
        | [] => (file, None)
        | _ =>
            and_then (writerows [Confirms_title tag; Blank] file) (fun file =>
            and_then (write_signals true (highlighted signals) file)
              (writerows [Blank]))
        end
        (fun file =>
      match regular signals with
      | [] => (file, None)
      | _ =>
          and_then
            match highlighted signals with
            | [] => (file, None)
            | _ => writerows [Other_signals; Blank] file
            end
            (write_signals false (regular signals))
      end))
  end.

(** The figures of the summary: signals and highlighted signals of either
    kind, highlighted signals in all, signals in all. *)
Definition summary (short_signals long_signals : list stored)
  : nat * nat * nat * nat * nat * nat :=
  (length short_signals, length (highlighted short_signals),
   length long_signals, length (highlighted long_signals),
   length (highlighted short_signals) + length (highlighted long_signals),
   length short_signals + length long_signals)%nat.

(** [export_to_csv], given what the two queries returned: the lines the
    file holds in the end, and the summary printed, or the exception
    that ended the function before it. *)
Definition export_to_csv (short_signals long_signals : list stored)
  : list csv_line * raising (nat * nat * nat * nat * nat * nat) :=
  let w :=
    and_then (writerows [Header] []) (fun file =>
    and_then (write_section "CROWD_SHORT__TOP_LONG" [Blank] short_signals file)
      (write_section "CROWD_LONG__TOP_SHORT" [Blank; Blank] long_signals)) in
  (w.1,
   match w.2 with
   | None => Returns (summary short_signals long_signals)
   | Some e => Raises e
   end).

(** The signals in the file, top to bottom, each with its highlight. *)
Definition data_lines (lines : list csv_line) : list (stored * bool) :=
  omap (fun l => match l with Data r h => Some (r, h) | _ => None end) lines.

(** The signals in the order [export_to_csv] sets out to write them, each
    with its highlight; and those of them that come before the first one
    [format_row] raises on. *)
Definition planned (short_signals long_signals : list stored)
  : list (stored * bool) :=
  (map (fun r => (r, true)) (highlighted short_signals)
   ++ map (fun r => (r, false)) (regular short_signals))
  ++ (map (fun r => (r, true)) (highlighted long_signals)
      ++ map (fun r => (r, false)) (regular long_signals)).

Fixpoint formatted_prefix (signals : list (stored * bool))
  : list (stored * bool) :=
  match signals with
  | [] => []
  | d :: rest => if formattable d.1 then d :: formatted_prefix rest else []
  end.

(** [F] writes the signals of [plan] in their order, as far as
    [format_row] formats them, and nothing else that is a signal; it
    raises [TypeError] at the first one that is not formatted. *)
Definition writes (F : list csv_line -> writing)
    (plan : list (stored * bool)) : Prop :=
  forall file,
    data_lines (F file).1 = data_lines file ++ formatted_prefix plan
    /\ (F file).2
       = if forallb (fun d => formattable d.1) plan then None
         else Some (Builtin TypeError).

(** What a [SELECT ... WHERE run_id = ? AND setup = tag] hands back: the
    rows of the table with that run and that setup, in some order. *)
Definition selected (run : Z) (tag : string) (table signals : list stored)
  : Prop :=
  signals ≡ₚ filter (fun r => db_run_id r = run /\ db_setup r = tag) table.

(** The columns of [s] are the values of [r] as SQLite keeps them. *)
Definition holds_values (r : row) (s : stored) : Prop :=
  db_run_id s = run_id r /\ db_symbol s = symbol r /\ db_setup s = setup r
  /\ db_timestamp_ms s = timestamp_ms r
  /\ Some (db_oi_usdt s) = sql_real (oi_usdt r)
  /\ db_top_acc_long s = sql_real (top_acc_long r)
  /\ db_top_acc_short s = sql_real (top_acc_short r)
  /\ db_glob_acc_long s = sql_real (glob_acc_long r)
  /\ db_glob_acc_short s = sql_real (glob_acc_short r)
  /\ db_top_pos_long s = sql_real (top_pos_long r)
  /\ db_top_pos_short s = sql_real (top_pos_short r)
  /\ db_funding_rate s = funding_rate r ≫= sql_real
  /\ db_current_price s = current_price r ≫= sql_real
  /\ db_volume_24h s = volume_24h r ≫= sql_real
  /\ db_volume_2h s = volume_2h r ≫= sql_real.

(** ** Comparisons of binary64 numbers *)

Lemma compare_cont_swap (p q : positive) :
  Pos.compare_cont Eq q p = CompOpp (Pos.compare_cont Eq p q).
Proof. rewrite (Pos.compare_cont_antisym p q Eq). reflexivity. Qed.

Lemma SFcompare_swap (x y : spec_float) :
  SFcompare y x = option_map CompOpp (SFcompare x y).
Proof.
  destruct x as [sx|sx| |sx mx ex], y as [sy|sy| |sy my ey]; simpl;
    try reflexivity;
    try (destruct sx; reflexivity); try (destruct sy; reflexivity);
    try (destruct sx, sy; reflexivity).
  destruct sx, sy; simpl; try reflexivity.
  - rewrite (Z.compare_antisym ey ex).
    destruct (ey ?= ex); simpl; try reflexivity.
    f_equal.
    change (PosDef.Pos.compare_cont Eq my mx) with (Pos.compare_cont Eq my mx).
    rewrite (compare_cont_swap mx my). reflexivity.
  - rewrite (Z.compare_antisym ey ex).
    destruct (ey ?= ex); simpl; try reflexivity.
    f_equal. apply (compare_cont_swap mx my).
Qed.

Lemma SFcompare_None (x y : spec_float) :
  SFcompare x y = None -> x = S754_nan \/ y = S754_nan.
Proof.
  destruct x as [sx|sx| |sx mx ex], y as [sy|sy| |sy my ey]; simpl; auto;
    discriminate.
Qed.

Lemma not_nan_Prim2SF (x : float) :
  PrimFloat.is_nan x = false -> Prim2SF x <> S754_nan.
Proof.
  unfold PrimFloat.is_nan. rewrite FloatAxioms.eqb_spec. intros H E. rewrite E in H.
  discriminate H.
Qed.

Lemma float_leb_not_ltb (x y : float) :
  PrimFloat.leb y x = true -> PrimFloat.ltb x y = false.
Proof.
  rewrite FloatAxioms.leb_spec, FloatAxioms.ltb_spec. unfold SFleb, SFltb.
  rewrite (SFcompare_swap (Prim2SF x) (Prim2SF y)).
  destruct (SFcompare (Prim2SF x) (Prim2SF y)) as [[]|]; simpl; congruence.
Qed.

Lemma float_not_ltb_leb (x y : float) :
  PrimFloat.is_nan x = false -> PrimFloat.is_nan y = false ->
  PrimFloat.ltb x y = false -> PrimFloat.leb y x = true.
Proof.
  rewrite FloatAxioms.leb_spec, FloatAxioms.ltb_spec. unfold SFleb, SFltb.
  rewrite (SFcompare_swap (Prim2SF x) (Prim2SF y)).
  intros Hx Hy.
  destruct (SFcompare (Prim2SF x) (Prim2SF y)) as [[]|] eqn:E; simpl;
    try congruence.
  apply SFcompare_None in E.
  destruct E as [E | E]; [apply not_nan_Prim2SF in Hx | apply not_nan_Prim2SF in Hy];
    contradiction.
Qed.

Lemma float_ge_int_not_lt (x : float) (n : Z) :
  float_ge_int x n = true -> float_lt_int x n = false.
Proof. apply float_leb_not_ltb. Qed.

Lemma float_not_lt_int_ge (x : float) :
  PrimFloat.is_nan x = false ->
  float_lt_int x MIN_OI_USDT = false -> float_ge_int x MIN_OI_USDT = true.
Proof. intros Hx. apply float_not_ltb_leb; [exact Hx | reflexivity]. Qed.

(** ** Unfolding an evaluation along its control flow *)

Local Arguments truthy : simpl never.
Local Arguments dict_get : simpl never.
Local Arguments f_get : simpl never.
Local Arguments py_int : simpl never.
Local Arguments setup_a : simpl never.
Local Arguments setup_b : simpl never.
Local Arguments float_lt_int : simpl never.
Local Arguments http_get_async_result : simpl never.
Local Arguments first_item : simpl never.
Local Arguments premium_data : simpl never.
Local Arguments ticker_volume : simpl never.
Local Arguments kline_volume : simpl never.
Local Arguments String.append : simpl never.

Ltac unfold_evaluation :=
  unfold evaluation, process_symbol_block, process_symbol_try,
    top_acc_of, glob_acc_of, top_pos_of, oi_of, fetched, latest_request in *;
  cbn.

(** Follow the next test or pattern match of the evaluator. *)
Ltac branch :=
  match goal with
  | |- context [if ?b then _ else _] => destruct b eqn:?
  | |- context [match ?x with _ => _ end] => destruct x eqn:?
  end; cbn.

Lemma orb_negb_false (a b c : bool) :
  negb a || negb b || negb c = false -> a = true /\ b = true /\ c = true.
Proof. destruct a, b, c; intuition discriminate. Qed.

(** A parsed field comes out of a dict that has the key, hence out of a
    truthy value. *)
Lemma f_get_Some_truthy d key x :
  f_get d key = Value (Some x) -> truthy d = true.
Proof.
  unfold f_get, dict_get, truthy.
  destruct d as [| | | | | |fields]; try discriminate.
  destruct fields as [|kv rest]; [|reflexivity].
  cbn. unfold f. cbn. discriminate.
Qed.

(** The three ways an evaluation can go: it stops at the ratio stage
    (no data, a field that does not parse, an exception, or neither setup
    holds); it passes the thresholds and stops at the open-interest gate;
    or it goes through and enqueues one row for each setup that holds. *)
Ltac use_setups :=
  repeat match goal with
         | H : setup_a _ _ _ = _ |- context [setup_a _ _ _] => rewrite H
         | H : setup_b _ _ _ = _ |- context [setup_b _ _ _] => rewrite H
         end.

Lemma evaluation_cases net run sym :
  let trace := evaluation net run sym in
  (rows_put trace = [] /\ requests_sent trace = ratio_requests sym
   /\ passed_cheap_filter trace = false /\ passed_oi_gate trace = false)
  \/ (exists ta_long ta_short ga_long ga_short tp_long tp_short ts_ms,
        ratios_parsed net sym ta_long ta_short ga_long ga_short
          tp_long tp_short ts_ms
        /\ setup_a ta_short ga_short tp_long
           || setup_b ta_long ga_long tp_short = true
        /\ passed_cheap_filter trace = true
        /\ (rows_put trace = [] /\ passed_oi_gate trace = false
            /\ ~ oi_admitted net sym
            \/ exists oi,
                f_get (oi_of net sym) "sumOpenInterestValue" = Value (Some oi)
                /\ float_lt_int oi MIN_OI_USDT = false
                /\ passed_oi_gate trace = true
                /\ rows_put trace
                   = hits net run sym ts_ms oi ta_long ta_short ga_long
                       ga_short tp_long tp_short)).
Proof.
  intros trace. assert (E : trace = evaluation net run sym) by reflexivity.
  clearbody trace. revert E.
  unfold hits, hit, oi_admitted, ratios_parsed, ratio_requests, premium_of, volumes_of.
  unfold_evaluation.
  repeat branch.
  all: intros ->.
  all: try (left; repeat split; reflexivity).
  all: try match goal with
            | H : negb _ = _ |- _ => cbn in H; discriminate H
            end.
  all: right.
  all: match goal with
       | H : _ || _ || _ = false |- _ =>
           apply orb_negb_false in H; destruct H as (Ht1 & Ht2 & Ht3)
       end.
  all: do 7 eexists.
  all: split;
    [repeat apply conj; try eassumption; try reflexivity;
     eexists; split; first [reflexivity | eassumption] |].
  all: use_setups.
  all: split; [reflexivity |].
  all: split; [reflexivity |].
  all: try (left; split; [reflexivity | split; [reflexivity |]];
            intros (x & Hx & Hlt);
            first [ congruence
                  | apply f_get_Some_truthy in Hx; 
                    match goal with H : negb (truthy _) = true |- _ => rewrite Hx in H; discriminate H end ]).
  all: right; eexists; split; [reflexivity || eassumption |].
  all: split; [assumption |]; split; [reflexivity |].
  all: use_setups; reflexivity.
Qed.

Global Opaque evaluation.

Lemma elem_of_hits net run sym ts_ms oi ta_long ta_short ga_long ga_short
    tp_long tp_short r :
  r ∈ hits net run sym ts_ms oi ta_long ta_short ga_long ga_short
        tp_long tp_short ->
  r = hit net run sym CROWD_SHORT ts_ms oi ta_long ta_short ga_long ga_short
        tp_long tp_short
    /\ setup_a ta_short ga_short tp_long = true
  \/ r = hit net run sym CROWD_LONG ts_ms oi ta_long ta_short ga_long ga_short
          tp_long tp_short
      /\ setup_b ta_long ga_long tp_short = true.
Proof.
  unfold hits.
  destruct (setup_a ta_short ga_short tp_long),
    (setup_b ta_long ga_long tp_short); cbn; intros H;
    repeat (apply elem_of_cons in H as [H | H]); try (inversion H; fail);
    auto.
Qed.

(** Everything the evaluator has established by the time it enqueues a
    row. *)
Lemma row_put_inv net run sym r :
  r ∈ rows_put (evaluation net run sym) ->
  exists ta_long ta_short ga_long ga_short tp_long tp_short ts_ms oi,
    ratios_parsed net sym ta_long ta_short ga_long ga_short tp_long tp_short
      ts_ms
    /\ f_get (oi_of net sym) "sumOpenInterestValue" = Value (Some oi)
    /\ float_lt_int oi MIN_OI_USDT = false
    /\ (r = hit net run sym CROWD_SHORT ts_ms oi ta_long ta_short ga_long
              ga_short tp_long tp_short
          /\ setup_a ta_short ga_short tp_long = true
        \/ r = hit net run sym CROWD_LONG ts_ms oi ta_long ta_short ga_long
                ga_short tp_long tp_short
            /\ setup_b ta_long ga_long tp_short = true).
Proof.
  intros Hr.
  destruct (evaluation_cases net run sym)
    as [(Hrows & _)
       | (ta_long & ta_short & ga_long & ga_short & tp_long & tp_short & ts_ms
          & Hparsed & _ & _
          & [(Hrows & _) | (oi & Hoi & Hlt & _ & Hrows)])];
    rewrite Hrows in Hr; try (inversion Hr; fail).
  exists ta_long, ta_short, ga_long, ga_short, tp_long, tp_short, ts_ms, oi.
  auto using elem_of_hits.
Qed.

(** * The claims about one evaluation *)

(** C1, as amended.  Every row that [process_symbol] enqueues carries the
    six fractions parsed from the three lenses; the three threshold
    conditions of the row's setup hold on them; and the open interest
    was fetched, parsed, and is not below [MIN_OI_USDT] -- it is at least
    [MIN_OI_USDT] whenever it is a number (not NaN).  Hence no row is
    enqueued for an instrument that failed one of these gates. *)
Theorem enqueued_rows_passed_the_gates net run sym r :
  r ∈ rows_put (evaluation net run sym) ->
  ratios_parsed net sym (top_acc_long r) (top_acc_short r) (glob_acc_long r)
    (glob_acc_short r) (top_pos_long r) (top_pos_short r) (timestamp_ms r)
  /\ (setup r = CROWD_SHORT
      /\ setup_a (top_acc_short r) (glob_acc_short r) (top_pos_long r) = true
      \/ setup r = CROWD_LONG
         /\ setup_b (top_acc_long r) (glob_acc_long r) (top_pos_short r)
            = true)
  /\ f_get (oi_of net sym) "sumOpenInterestValue" = Value (Some (oi_usdt r))
  /\ float_lt_int (oi_usdt r) MIN_OI_USDT = false
  /\ (PrimFloat.is_nan (oi_usdt r) = false ->
      float_ge_int (oi_usdt r) MIN_OI_USDT = true).
Proof.
  intros Hr. apply row_put_inv in Hr
    as (ta_long & ta_short & ga_long & ga_short & tp_long & tp_short & ts_ms
        & oi & Hparsed & Hoi & Hlt & [[-> Ha] | [-> Hb]]);
    cbn -[float_ge_int float_lt_int].
  - split; [exact Hparsed |]. split; [left; split; [reflexivity | exact Ha] |].
    split; [exact Hoi |]. split; [exact Hlt |].
    intros Hnum. apply float_not_lt_int_ge; assumption.
  - split; [exact Hparsed |]. split; [right; split; [reflexivity | exact Hb] |].
    split; [exact Hoi |]. split; [exact Hlt |].
    intros Hnum. apply float_not_lt_int_ge; assumption.
Qed.

(** C3, as amended.  When the fractions of an instrument satisfy both
    setups and the evaluation passes the open-interest gate, exactly two
    rows are enqueued; they agree on every column but [setup], where the
    first holds "CROWD_SHORT__TOP_LONG" (Setup A) and the second
    "CROWD_LONG__TOP_SHORT" (Setup B), each with two underscores in the
    middle. *)
Theorem both_setups_two_rows net run sym
    ta_long ta_short ga_long ga_short tp_long tp_short :
  f_get (top_acc_of net sym) "longAccount" = Value (Some ta_long) ->
  f_get (top_acc_of net sym) "shortAccount" = Value (Some ta_short) ->
  f_get (glob_acc_of net sym) "longAccount" = Value (Some ga_long) ->
  f_get (glob_acc_of net sym) "shortAccount" = Value (Some ga_short) ->
  f_get (top_pos_of net sym) "longAccount" = Value (Some tp_long) ->
  f_get (top_pos_of net sym) "shortAccount" = Value (Some tp_short) ->
  setup_a ta_short ga_short tp_long = true ->
  setup_b ta_long ga_long tp_short = true ->
  passed_oi_gate (evaluation net run sym) = true ->
  exists ra rb,
    rows_put (evaluation net run sym) = [ra; rb]
    /\ setup ra = "CROWD_SHORT__TOP_LONG"
    /\ setup rb = "CROWD_LONG__TOP_SHORT"
    /\ same_but_setup ra rb
    /\ (top_acc_long ra = ta_long /\ top_acc_short ra = ta_short
        /\ glob_acc_long ra = ga_long /\ glob_acc_short ra = ga_short
        /\ top_pos_long ra = tp_long /\ top_pos_short ra = tp_short).
Proof.
  intros H1 H2 H3 H4 H5 H6 Ha Hb Hgate.
  destruct (evaluation_cases net run sym)
    as [(_ & _ & _ & Hno)
       | (ta_long' & ta_short' & ga_long' & ga_short' & tp_long' & tp_short'
          & ts_ms & Hparsed & _ & _
          & [(_ & Hno & _) | (oi & Hoi & Hlt & _ & Hrows)])];
    try congruence.
  destruct Hparsed as (_ & (E1 & E2 & E3 & E4 & E5 & E6) & _).
  assert (ta_long' = ta_long) as -> by congruence.
  assert (ta_short' = ta_short) as -> by congruence.
  assert (ga_long' = ga_long) as -> by congruence.
  assert (ga_short' = ga_short) as -> by congruence.
  assert (tp_long' = tp_long) as -> by congruence.
  assert (tp_short' = tp_short) as -> by congruence.
  unfold hits in Hrows. rewrite Ha, Hb in Hrows. cbn in Hrows.
  eexists _, _. split; [exact Hrows |].
  unfold same_but_setup. cbn. repeat apply conj; reflexivity.
Qed.

(** C7.  If one of the three ratio lenses comes back without data, or one
    of the six ratio fields does not parse as a float ([f] returns
    [None]), the evaluator enqueues no row and sends nothing after the
    three ratio requests: no open-interest request, no enrichment
    request. *)
Theorem missing_ratio_data_aborts net run sym :
  top_acc_of net sym = JNull \/ glob_acc_of net sym = JNull
  \/ top_pos_of net sym = JNull
  \/ f_get (top_acc_of net sym) "longAccount" = Value None
  \/ f_get (top_acc_of net sym) "shortAccount" = Value None
  \/ f_get (glob_acc_of net sym) "longAccount" = Value None
  \/ f_get (glob_acc_of net sym) "shortAccount" = Value None
  \/ f_get (top_pos_of net sym) "longAccount" = Value None
  \/ f_get (top_pos_of net sym) "shortAccount" = Value None ->
  rows_put (evaluation net run sym) = []
  /\ requests_sent (evaluation net run sym) = ratio_requests sym.
Proof.
  intros Hmissing.
  destruct (evaluation_cases net run sym)
    as [(Hrows & Hsent & _)
       | (ta_long & ta_short & ga_long & ga_short & tp_long & tp_short & ts_ms
          & Hparsed & _)]; [auto |].
  exfalso.
  destruct Hparsed as ((T1 & T2 & T3) & (E1 & E2 & E3 & E4 & E5 & E6) & _).
  destruct Hmissing as [E | [E | [E | H]]];
    [rewrite E in *; discriminate .. |].
  intuition congruence.
Qed.

(** C9.  For an instrument past the ratio thresholds: an open interest
    exactly equal to [MIN_OI_USDT] passes the gate, and so does every
    value at least as large (the comparison is inclusive); a strictly
    smaller value, a missing open interest or one that does not parse
    yields no row. *)
Theorem open_interest_gate_is_inclusive net run sym :
  passed_cheap_filter (evaluation net run sym) = true ->
  (forall x,
      f_get (oi_of net sym) "sumOpenInterestValue" = Value (Some x) ->
      x = 2500000%float \/ float_ge_int x MIN_OI_USDT = true ->
      passed_oi_gate (evaluation net run sym) = true
      /\ rows_put (evaluation net run sym) <> [])
  /\ (forall x,
        f_get (oi_of net sym) "sumOpenInterestValue" = Value (Some x) ->
        float_lt_int x MIN_OI_USDT = true ->
        rows_put (evaluation net run sym) = [])
  /\ (oi_of net sym = JNull
      \/ f_get (oi_of net sym) "sumOpenInterestValue" = Value None ->
      rows_put (evaluation net run sym) = []).
Proof.
  intros Hpass.
  destruct (evaluation_cases net run sym)
    as [(_ & _ & Hno & _)
       | (ta_long & ta_short & ga_long & ga_short & tp_long & tp_short & ts_ms
          & Hparsed & Hab & _
          & [(Hrows & Hgate & Hrefused) | (oi & Hoi & Hlt & Hgate & Hrows)])];
    [congruence | |].
  - split; [| split]; auto.
    intros x Hx Hge. exfalso. apply Hrefused. exists x. split; [exact Hx |].
    destruct Hge as [-> | Hge]; [reflexivity | auto using float_ge_int_not_lt].
  - split; [| split].
    + intros x _ _. split; [exact Hgate |]. rewrite Hrows. unfold hits.
      destruct (setup_a ta_short ga_short tp_long),
        (setup_b ta_long ga_long tp_short); cbn; discriminate.
    + intros x Hx Hsmall. congruence.
    + intros [E | E]; [| congruence].
      apply f_get_Some_truthy in Hoi. rewrite E in Hoi. discriminate Hoi.
Qed.

(** C10.  The timestamp of every enqueued row is [int] of the field
    "timestamp" of the top-account snapshot, with [0] standing in when
    the field is absent: the row is then stored with timestamp 0.  Two
    evaluations that receive the same top-account snapshot enqueue rows
    with the same timestamp, whatever the other two lenses -- and every
    other call -- return. *)
Theorem timestamp_comes_from_top_account net run sym r :
  r ∈ rows_put (evaluation net run sym) ->
  (exists ts,
      dict_get (top_acc_of net sym) "timestamp" (JInt 0) = Value ts
      /\ py_int ts = Value (timestamp_ms r))
  /\ (forall fields,
        top_acc_of net sym = JObj fields ->
        assoc "timestamp" fields = None -> timestamp_ms r = 0)
  /\ (forall net' run' r',
        top_acc_of net' sym = top_acc_of net sym ->
        r' ∈ rows_put (evaluation net' run' sym) ->
        timestamp_ms r' = timestamp_ms r).
Proof.
  intros Hr.
  assert (Hts : forall n k q, q ∈ rows_put (evaluation n k sym) ->
            exists ts, dict_get (top_acc_of n sym) "timestamp" (JInt 0)
                       = Value ts
                       /\ py_int ts = Value (timestamp_ms q)).
  { intros n k q Hq. apply row_put_inv in Hq
      as (? & ? & ? & ? & ? & ? & ts_ms & ? & Hparsed & _ & _ & Hq).
    destruct Hparsed as (_ & _ & Hts).
    destruct Hq as [[-> _] | [-> _]]; exact Hts. }
  destruct (Hts _ _ _ Hr) as (ts & Hget & Hint).
  split; [eauto | split].
  - intros fields E Habsent. rewrite E in Hget. unfold dict_get in Hget.
    rewrite Habsent in Hget. cbn in Hget. injection Hget as <-.
    unfold py_int in Hint. congruence.
  - intros net' run' r' E Hr'.
    destruct (Hts _ _ _ Hr') as (ts' & Hget' & Hint').
    rewrite E in Hget'. congruence.
Qed.

(** * The asynchronous GET *)

(** [http_get_async] calls [session.get] once and hands its caller
    [None] when the call raises, when the status is not 200 or when the
    body cannot be decoded. *)
Lemma http_get_async_failure_is_None (net : request -> http_result)
    (path : string) (params : list (string * json)) (timeout : Z) :
  let rq := {| url := BINANCE_BASE +:+ path; params := params;
               timeout := timeout |} in
  net rq = Http_raises
  \/ (exists status body, net rq = Http_response status body /\ status <> 200)
  \/ (exists status, net rq = Http_response status None) ->
  run_to_end net (http_get_async path params timeout) []
  = (JNull, [Sent rq]).
Proof.
  intros rq Hfails. cbn. fold rq. f_equal. unfold http_get_async_result.
  destruct Hfails as [-> | [(status & body & -> & Hstatus) | (status & ->)]].
  - reflexivity.
  - destruct (status =? 200) eqn:E; [| reflexivity].
    apply Z.eqb_eq in E. contradiction.
  - destruct (status =? 200); reflexivity.
Qed.

(** C2.  Setup A holds exactly when top-account-short >= 0.65,
    global-account-short >= 0.65 and top-position-long >= 0.45; Setup B
    is the mirror image on the opposite fields; and the two are
    independent: every combination of outcomes is reached by some six
    fractions. *)
Theorem setup_predicates_are_the_thresholds
    (ta_long ta_short ga_long ga_short tp_long tp_short : float) :
  (setup_a ta_short ga_short tp_long = true <->
     PrimFloat.leb 0.65 ta_short = true /\ PrimFloat.leb 0.65 ga_short = true
     /\ PrimFloat.leb 0.45 tp_long = true)
  /\ (setup_b ta_long ga_long tp_short = true <->
       PrimFloat.leb 0.65 ta_long = true /\ PrimFloat.leb 0.65 ga_long = true
       /\ PrimFloat.leb 0.45 tp_short = true)
  /\ (forall a b : bool,
        exists l1 s1 l2 s2 l3 s3 : float,
          setup_a s1 s2 l3 = a /\ setup_b l1 l2 s3 = b).
Proof.
  unfold setup_a, setup_b, float_ge, TOP_ACC_SHORT_MIN, GLOBAL_ACC_SHORT_MIN,
    TOP_POS_LONG_MIN, TOP_ACC_LONG_MIN, GLOBAL_ACC_LONG_MIN, TOP_POS_SHORT_MIN.
  split; [| split].
  - rewrite !andb_true_iff. tauto.
  - rewrite !andb_true_iff. tauto.
  - intros [|] [|].
    + exists 0.7%float, 0.7%float, 0.7%float, 0.7%float, 0.5%float, 0.5%float.
      split; reflexivity.
    + exists 0.3%float, 0.7%float, 0.3%float, 0.7%float, 0.5%float, 0.5%float.
      split; reflexivity.
    + exists 0.7%float, 0.3%float, 0.7%float, 0.3%float, 0.5%float, 0.5%float.
      split; reflexivity.
    + exists 0.5%float, 0.5%float, 0.5%float, 0.5%float, 0.5%float, 0.5%float.
      split; reflexivity.
Qed.

(** * The writer and the table *)




(** The row an accepted [INSERT] writes holds the values it was handed,
    as SQLite keeps them, under the key of the tuple. *)
Lemma bind_row_accepted (r : row) (s : stored) :
  bind_row r = Accepted s ->
  holds_values r s /\ stored_key s = primary_key r.
Proof.
  unfold bind_row.
  destruct (sql_integer (run_id r) && sql_integer (timestamp_ms r));
    [| discriminate].
  destruct (sql_real (oi_usdt r)) as [oi |] eqn:Hoi; [| discriminate].
  intros [= <-]. unfold holds_values, stored_key, primary_key. cbn.
  auto 20.
Qed.

(** An [INSERT] is refused for an [int] out of the 64-bit range, else for
    an open interest that is NaN, and for nothing else. *)
Lemma bind_row_refused (r : row) (e : sql_error) :
  bind_row r = Refused e <->
  (e = Int_too_large
   /\ sql_integer (run_id r) && sql_integer (timestamp_ms r) = false)
  \/ (e = Not_null_failed
      /\ sql_integer (run_id r) && sql_integer (timestamp_ms r) = true
      /\ PrimFloat.is_nan (oi_usdt r) = true).
Proof.
  unfold bind_row, sql_real.
  destruct (sql_integer (run_id r) && sql_integer (timestamp_ms r)).
  - destruct (PrimFloat.is_nan (oi_usdt r)).
    + split; [intros [= <-]; auto | intros [[_ H] | [-> _]]; congruence].
    + destruct (PrimFloat.eqb (oi_usdt r) 0);
        (split; [discriminate | intros [[_ H] | (_ & _ & H)]; discriminate H]).
  - split; [intros [= <-]; auto | intros [[-> _] | (_ & H & _)]; congruence].
Qed.


(** * The scan: the semaphore *)

Lemma count_insert (p : task -> bool) (ts : list task) (i : nat) (x y : task) :
  ts !! i = Some x ->
  (count p (<[i := y]> ts) + (if p x then 1 else 0)
   = count p ts + (if p y then 1 else 0))%nat.
Proof.
  revert i. induction ts as [|t ts IH]; intros [|i] Hx; try discriminate.
  - injection Hx as ->. cbn. destruct (p x), (p y); lia.
  - specialize (IH i Hx).
    change (<[S i := y]> (t :: ts)) with (t :: <[i := y]> ts).
    cbn [count]. revert IH. destruct (p x), (p y), (p t); lia.
Qed.

Lemma settle_slots (i slots : nat) (st : scan) (ps : coro unit * shared)
    (x : task) :
  tasks st !! i = Some x ->
  (semaphore (settle i slots st ps) + in_flight (settle i slots st ps)
   + (if in_block x then 1 else 0)
   = slots + in_flight st + 1)%nat.
Proof.
  intros Hx. unfold settle, in_flight.
  destruct ps.1; cbn [semaphore tasks];
    match goal with
    | |- context [count in_block (<[i := ?y]> _)] =>
        pose proof (count_insert in_block _ _ _ y Hx) as Hc
    end; cbn [in_block] in Hc; lia.
Qed.

Lemma step_keeps_slots (c : choice) (st st' : scan) :
  step c st = Some st' ->
  (semaphore st' + in_flight st' = semaphore st + in_flight st)%nat.
Proof.
  destruct c as [i answer|]; cbn.
  - unfold resume. destruct (tasks st !! i) as [[block|rest|]|] eqn:Hi;
      try discriminate.
    + destruct (semaphore st) as [|slots] eqn:Hsem; [discriminate |].
      intros [= <-].
      pose proof (settle_slots i slots st
                    (advance (total_symbols st) block (vars st)) _ Hi) as H.
      cbn [in_block] in H. lia.
    + destruct rest as [|rq k|secs k|]; try discriminate; intros [= <-].
      * pose proof (settle_slots i (semaphore st) st
                      (advance (total_symbols st) (k answer) (vars st)) _ Hi)
          as H.
        cbn [in_block] in H. lia.
      * pose proof (settle_slots i (semaphore st) st
                      (advance (total_symbols st) k (vars st)) _ Hi) as H.
        cbn [in_block] in H. lia.
  - unfold writer_turn. destruct (db_writer st); try discriminate.
    destruct (insert_queue (vars st)) as [| row_data rest].
    + destruct (total_symbols st <=? scanned (vars st))%nat;
        intros [= <-]; reflexivity.
    + destruct (bind_row row_data); intros [= <-]; reflexivity.
Qed.

Lemma exec_keeps_slots (schedule : list choice) (st st' : scan) :
  exec schedule st = Some st' ->
  (semaphore st' + in_flight st' = semaphore st + in_flight st)%nat.
Proof.
  revert st. induction schedule as [|c later IH]; intros st; cbn.
  - intros [= <-]. reflexivity.
  - destruct (step c st) as [st1|] eqn:Hstep; [| discriminate].
    intros Hlater. rewrite (IH _ Hlater). exact (step_keeps_slots _ _ _ Hstep).
Qed.

Lemma start_in_flight (run : Z) (symbols : list string) :
  in_flight (start run symbols) = O.
Proof.
  unfold in_flight, start. cbn [tasks].
  induction symbols as [|sym symbols IH]; [reflexivity | exact IH].
Qed.

(** C6.  At every point of a scan at most ten evaluations are inside
    [async with semaphore]: the free slots and the evaluations in flight
    always add up to ten.  With ten in flight, an instrument that has
    not been admitted cannot be resumed; with fewer, it can. *)
Theorem at_most_ten_in_flight (run : Z) (symbols : list string)
    (schedule : list choice) (st : scan) :
  exec schedule (start run symbols) = Some st ->
  (in_flight st <= 10)%nat
  /\ (semaphore st + in_flight st = 10)%nat
  /\ (forall i block answer,
        tasks st !! i = Some (Acquiring block) ->
        (in_flight st = 10%nat -> step (Resume i answer) st = None)
        /\ ((in_flight st < 10)%nat ->
            exists st', step (Resume i answer) st = Some st')).
Proof.
  intros Hexec. apply exec_keeps_slots in Hexec.
  rewrite start_in_flight in Hexec. cbn [start semaphore] in Hexec.
  split; [lia |]. split; [lia |].
  intros i block answer Hi. cbn [step]. unfold resume. rewrite Hi.
  split; intros Hfull.
  - replace (semaphore st) with O by lia. reflexivity.
  - destruct (semaphore st) as [|slots]; [lia |]. eauto.
Qed.

(** * The scan: counting the instruments and stopping the writer *)

Lemma perform_scanned (total : nat) (a : action) (s : shared) :
  a <> Scanned_incr -> scanned (perform total a s) = scanned s.
Proof.
  unfold perform. destruct a; try congruence; intros _; try reflexivity.
  destruct (scanned s mod 25 =? 0)%nat; reflexivity.
Qed.

Lemma advance_quiet (total : nat) (p : coro unit) (s : shared) :
  quiet p ->
  scanned (advance total p s).2 = scanned s
  /\ quiet (advance total p s).1
  /\ (suspended (advance total p s).1
      \/ exists u, (advance total p s).1 = Ret u).
Proof.
  revert s. induction p as [u|rq k IH|secs k IH|a k IH]; intros s Hq; cbn.
  - eauto.
  - auto.
  - auto.
  - destruct Hq as [Ha Hk]. destruct (IH (perform total a s) Hk) as (E & H).
    rewrite E, perform_scanned by exact Ha. auto.
Qed.

Lemma quiet_bind {A B : Type} (m : coro A) (k : A -> coro B) :
  quiet m -> (forall a, quiet (k a)) -> quiet (bind m k).
Proof.
  intros Hm Hk. induction m as [a|rq c IH|secs c IH|a c IH]; cbn in *; auto.
  destruct Hm. auto.
Qed.

Lemma process_symbol_ok (run : Z) (sym : string) :
  task_ok (process_symbol run sym).
Proof.
  unfold process_symbol, task_ok, process_symbol_block.
  eexists. split; [reflexivity |].
  cbn [quiet]. split; [discriminate |].
  apply quiet_bind.
  - unfold process_symbol_try. cbn.
    repeat first
      [ exact I
      | discriminate
      | split
      | match goal with |- forall _ : http_result, _ => intro end
      | branch ].
  - intros [| |e]; cbn; repeat split; discriminate.
Qed.

Lemma settle_ok (i slots : nat) (st : scan) (ps : coro unit * shared)
    (x : task) :
  tasks st !! i = Some x ->
  scan_ok st ->
  quiet ps.1 ->
  suspended ps.1 \/ (exists u, ps.1 = Ret u) ->
  scanned ps.2
  = (count started (tasks st) + (if started x then 0 else 1))%nat ->
  scan_ok (settle i slots st ps).
Proof.
  intros Hx (Htotal & _ & Hall) Hquiet Hshape Hscanned.
  unfold settle, scan_ok.
  destruct ps.1 as [u|rq k|secs k|a k] eqn:Hp;
    cbn [total_symbols tasks vars];
    match goal with
    | |- context [<[i := ?y]> _] =>
        pose proof (count_insert started _ _ _ y Hx) as Hc
    end; cbn [started] in Hc;
    (split; [rewrite length_insert; exact Htotal |]);
    (split; [rewrite Hscanned; revert Hc; destruct (started x); lia |]);
    apply Forall_insert; try exact Hall; cbn; auto.
  destruct Hshape as [[] | [u Hu]]. discriminate Hu.
Qed.

Lemma step_ok (c : choice) (st st' : scan) :
  scan_ok st -> step c st = Some st' -> scan_ok st'.
Proof.
  intros Hok. pose proof Hok as (Htotal & Hscanned & Hall).
  destruct c as [i answer|]; cbn.
  - unfold resume. destruct (tasks st !! i) as [[block|rest|]|] eqn:Hi;
      try discriminate;
      pose proof (proj1 (Forall_lookup _ _) Hall _ _ Hi) as Hx; cbn in Hx.
    + destruct (semaphore st) as [|slots]; [discriminate |].
      intros [= <-]. destruct Hx as (k & -> & Hk). cbn [advance].
      destruct (advance_quiet (total_symbols st) k
                  (perform (total_symbols st) Scanned_incr (vars st)) Hk)
        as (E & Hq & Hs).
      apply (settle_ok _ _ _ _ _ Hi Hok Hq Hs).
      rewrite E. cbn. lia.
    + destruct Hx as (_ & Hq).
      destruct rest as [|rq k|secs k|]; try discriminate; intros [= <-].
      * destruct (advance_quiet (total_symbols st) (k answer) (vars st)
                    (Hq answer)) as (E & Hq' & Hs).
        apply (settle_ok _ _ _ _ _ Hi Hok Hq' Hs). rewrite E. cbn. lia.
      * destruct (advance_quiet (total_symbols st) k (vars st) Hq)
          as (E & Hq' & Hs).
        apply (settle_ok _ _ _ _ _ Hi Hok Hq' Hs). rewrite E. cbn. lia.
  - unfold writer_turn. destruct (db_writer st); try discriminate.
    destruct (insert_queue (vars st)) as [| row_data rest].
    + destruct (total_symbols st <=? scanned (vars st))%nat;
        intros [= <-]; exact Hok.
    + destruct (bind_row row_data); intros [= <-]; exact Hok.
Qed.

Lemma exec_ok (schedule : list choice) (st st' : scan) :
  scan_ok st -> exec schedule st = Some st' -> scan_ok st'.
Proof.
  revert st. induction schedule as [|c later IH]; intros st Hok; cbn.
  - intros [= <-]. exact Hok.
  - destruct (step c st) as [st1|] eqn:Hstep; [| discriminate].
    apply IH. exact (step_ok _ _ _ Hok Hstep).
Qed.

Lemma start_ok (run : Z) (symbols : list string) :
  scan_ok (start run symbols).
Proof.
  unfold scan_ok, start. cbn [total_symbols tasks vars scanned].
  split; [rewrite length_map; reflexivity |]. split.
  - induction symbols as [|sym symbols IH]; [reflexivity | exact IH].
  - apply Forall_map, Forall_forall. intros sym _. apply process_symbol_ok.
Qed.

Lemma count_started_finished (ts : list task) :
  Forall (fun t => t = Finished) ts -> count started ts = length ts.
Proof.
  induction 1 as [|t ts -> _ IH]; [reflexivity |]. cbn. rewrite IH. reflexivity.
Qed.

(** Once [scanned] has reached the total, the writer empties a queue of
    rows that SQLite accepts and stops at the first poll that finds it
    empty. *)
Lemma writer_drains (n : nat) (st : scan) :
  writer_turns_left st = n ->
  ~ aborted st ->
  (total_symbols st <= scanned (vars st))%nat ->
  Forall storable (insert_queue (vars st)) ->
  exists st',
    exec (repeat Writer_turn n) st = Some st'
    /\ db_writer st' = Stopped
    /\ tasks st' = tasks st
    /\ total_symbols st' = total_symbols st
    /\ scanned (vars st') = scanned (vars st).
Proof.
  revert st. induction n as [|n IH]; intros st Hleft Hnot Hall Hrows.
  - exists st. unfold writer_turns_left in Hleft.
    destruct (db_writer st) as [| | e] eqn:Hw; [discriminate | auto |].
    exfalso. apply Hnot. exists e. exact Hw.
  - unfold writer_turns_left in Hleft.
    destruct (db_writer st) eqn:Hw; try discriminate.
    injection Hleft as Hlen. cbn [repeat exec step]. unfold writer_turn.
    rewrite Hw. destruct (insert_queue (vars st)) as [|row_data rest] eqn:Hq.
    + apply Nat.leb_le in Hall. rewrite Hall. subst n. cbn. eauto 10.
    + apply Forall_cons in Hrows as [[s Hs] Hrows]. rewrite Hs.
      match goal with
      | |- context [exec _ ?st1] =>
          destruct (IH st1) as (st' & Hexec & Hstop & Htasks & Htotal & Hsc)
      end.
      * unfold writer_turns_left. cbn. cbn in Hlen. congruence.
      * intros [e He]. discriminate He.
      * exact Hall.
      * exact Hrows.
      * exists st'. auto.
Qed.

(** Once [scanned] has reached the total, the writer is over within as
    many turns as there are rows in the queue, and one: it has left its
    loop, or an [INSERT] has raised. *)
Lemma writer_ends (n : nat) (st : scan) :
  writer_turns_left st = n ->
  (total_symbols st <= scanned (vars st))%nat ->
  exists turns st',
    (turns <= n)%nat
    /\ exec (repeat Writer_turn turns) st = Some st'
    /\ (db_writer st' = Stopped \/ aborted st')
    /\ tasks st' = tasks st
    /\ total_symbols st' = total_symbols st
    /\ scanned (vars st') = scanned (vars st).
Proof.
  revert st. induction n as [|n IH]; intros st Hleft Hall.
  - exists O, st. unfold writer_turns_left in Hleft. split; [lia |].
    split; [reflexivity |].
    destruct (db_writer st) as [| | e] eqn:Hw; [discriminate | auto |].
    split; [right; exists e; exact Hw | auto].
  - unfold writer_turns_left in Hleft.
    destruct (db_writer st) eqn:Hw; try discriminate.
    injection Hleft as Hlen.
    destruct (insert_queue (vars st)) as [|row_data rest] eqn:Hq.
    + exists 1%nat. cbn [repeat exec step]. unfold writer_turn.
      rewrite Hw, Hq. apply Nat.leb_le in Hall. rewrite Hall.
      eexists. split; [lia |]. split; [reflexivity |]. cbn. auto 10.
    + destruct (bind_row row_data) as [s | e] eqn:Hs.
      * match type of Hs with _ =>
          destruct (IH {| total_symbols := total_symbols st;
                          tasks := tasks st; semaphore := semaphore st;
                          vars := {| scanned := scanned (vars st);
                                     passed_traders := passed_traders (vars st);
                                     inserted := S (inserted (vars st));
                                     insert_queue := rest;
                                     stdout := stdout (vars st) |};
                          scan_hits := insert_or_replace s (scan_hits st);
                          db_writer := Polling |})
            as (turns & st' & Hle & Hexec & Hend & Htasks & Htotal & Hsc)
        end.
        { unfold writer_turns_left. cbn. cbn in Hlen. congruence. }
        { exact Hall. }
        exists (S turns), st'. split; [lia |].
        cbn [repeat exec step]. unfold writer_turn. rewrite Hw, Hq, Hs.
        auto 10.
      * exists 1%nat. cbn [repeat exec step]. unfold writer_turn.
        rewrite Hw, Hq, Hs.
        eexists. split; [lia |]. split; [reflexivity |]. cbn.
        split; [right; exists e; reflexivity | auto].
Qed.

(** With every evaluation over and the writer out of its loop, nothing
    can run. *)
Lemma over_is_over (st : scan) :
  Forall (fun t => t = Finished) (tasks st) ->
  db_writer st <> Polling ->
  forall c, step c st = None.
Proof.
  intros Hfin Hw [i answer |]; cbn.
  - unfold resume. destruct (tasks st !! i) as [t |] eqn:Hi; [| reflexivity].
    rewrite (proj1 (Forall_lookup _ _) Hfin _ _ Hi). reflexivity.
  - unfold writer_turn. destruct (db_writer st); congruence.
Qed.

(** With every evaluation over and [scanned] at the total, nothing but
    the writer can run, and it cannot run longer than it takes to empty
    the queue. *)
Lemma nothing_but_the_writer (later : list choice) (st st' : scan) :
  Forall (fun t => t = Finished) (tasks st) ->
  (total_symbols st <= scanned (vars st))%nat ->
  exec later st = Some st' ->
  (length later <= writer_turns_left st)%nat.
Proof.
  revert st. induction later as [|c later IH]; intros st Hfin Hall; cbn.
  - lia.
  - destruct (step c st) as [st1|] eqn:Hstep; [| discriminate].
    intros Hexec. destruct c as [i answer|]; cbn in Hstep.
    + unfold resume in Hstep.
      destruct (tasks st !! i) as [t|] eqn:Hi; [| discriminate].
      rewrite (proj1 (Forall_lookup _ _) Hfin _ _ Hi) in Hstep. discriminate.
    + unfold writer_turn in Hstep. unfold writer_turns_left at 1.
      destruct (db_writer st); try discriminate.
      destruct (insert_queue (vars st)) as [|row_data rest].
      * apply Nat.leb_le in Hall. rewrite Hall in Hstep.
        injection Hstep as <-.
        apply IH in Hexec;
          [| exact Hfin | exact (proj1 (Nat.leb_le _ _) Hall)].
        unfold writer_turns_left in Hexec. cbn in *. lia.
      * destruct (bind_row row_data); injection Hstep as <-;
          (apply IH in Hexec; [| exact Hfin | exact Hall]);
          unfold writer_turns_left in Hexec; cbn in *; lia.
Qed.

Lemma step_total (c : choice) (st st' : scan) :
  step c st = Some st' -> total_symbols st' = total_symbols st.
Proof.
  destruct c as [i answer|]; cbn.
  - unfold resume.
    destruct (tasks st !! i) as [[block|rest|]|]; try discriminate.
    + destruct (semaphore st); [discriminate |].
      intros [= <-]. unfold settle. destruct (advance _ _ _).1; reflexivity.
    + destruct rest; try discriminate; intros [= <-];
        unfold settle; destruct (advance _ _ _).1; reflexivity.
  - unfold writer_turn. destruct (db_writer st); try discriminate.
    destruct (insert_queue (vars st)) as [| row_data rest].
    + destruct (total_symbols st <=? scanned (vars st))%nat;
        intros [= <-]; reflexivity.
    + destruct (bind_row row_data); intros [= <-]; reflexivity.
Qed.

Lemma exec_total (schedule : list choice) (st st' : scan) :
  exec schedule st = Some st' -> total_symbols st' = total_symbols st.
Proof.
  revert st. induction schedule as [|c later IH]; intros st; cbn.
  - intros [= <-]. reflexivity.
  - destruct (step c st) as [st1|] eqn:Hstep; [| discriminate].
    intros Hlater. rewrite (IH _ Hlater). exact (step_total _ _ _ Hstep).
Qed.

Lemma settle_writer (i slots : nat) (st : scan) (ps : coro unit * shared) :
  db_writer (settle i slots st ps) = db_writer st
  /\ vars (settle i slots st ps) = ps.2.
Proof. unfold settle. destruct ps.1; split; reflexivity. Qed.

Lemma resume_scanned (i : nat) (answer : http_result) (st st' : scan) :
  scan_ok st -> resume i answer st = Some st' ->
  db_writer st' = db_writer st
  /\ (scanned (vars st) <= scanned (vars st'))%nat.
Proof.
  intros (_ & _ & Hall). unfold resume.
  destruct (tasks st !! i) as [[block|rest|]|] eqn:Hi; try discriminate;
    pose proof (proj1 (Forall_lookup _ _) Hall _ _ Hi) as Hx; cbn in Hx.
  - destruct (semaphore st) as [|slots]; [discriminate |].
    intros [= <-]. destruct Hx as (k & -> & Hk). cbn [advance].
    destruct (advance_quiet (total_symbols st) k
                (perform (total_symbols st) Scanned_incr (vars st)) Hk)
      as (E & _).
    destruct (settle_writer i slots st
                (advance (total_symbols st) k
                   (perform (total_symbols st) Scanned_incr (vars st))))
      as (-> & ->).
    rewrite E. cbn. split; [reflexivity | lia].
  - destruct Hx as (_ & Hq).
    destruct rest as [|rq k|secs k|]; try discriminate; intros [= <-].
    + destruct (advance_quiet (total_symbols st) (k answer) (vars st)
                  (Hq answer)) as (E & _).
      destruct (settle_writer i (semaphore st) st
                  (advance (total_symbols st) (k answer) (vars st)))
        as (-> & ->).
      rewrite E. split; [reflexivity | lia].
    + destruct (advance_quiet (total_symbols st) k (vars st) Hq) as (E & _).
      destruct (settle_writer i (semaphore st) st
                  (advance (total_symbols st) k (vars st)))
        as (-> & ->).
      rewrite E. split; [reflexivity | lia].
Qed.

(** The writer leaves its loop only at a poll of the empty queue that
    finds [scanned >= total_symbols]; [scanned] never decreases. *)
Lemma step_writer_late (c : choice) (st st' : scan) :
  scan_ok st ->
  (db_writer st = Stopped -> (total_symbols st <= scanned (vars st))%nat) ->
  step c st = Some st' ->
  db_writer st' = Stopped -> (total_symbols st' <= scanned (vars st'))%nat.
Proof.
  intros Hok Hlate Hstep. rewrite (step_total _ _ _ Hstep).
  destruct c as [i answer|]; cbn in Hstep.
  - destruct (resume_scanned _ _ _ _ Hok Hstep) as (-> & Hmono).
    intros Hstop. specialize (Hlate Hstop). lia.
  - unfold writer_turn in Hstep.
    destruct (db_writer st) eqn:Hw; try discriminate.
    destruct (insert_queue (vars st)) as [| row_data rest].
    + destruct (total_symbols st <=? scanned (vars st))%nat eqn:Hreached;
        injection Hstep as <-; cbn.
      * intros _. apply Nat.leb_le. exact Hreached.
      * congruence.
    + destruct (bind_row row_data); injection Hstep as <-; cbn; discriminate.
Qed.

Lemma exec_writer_late (schedule : list choice) (st st' : scan) :
  scan_ok st ->
  (db_writer st = Stopped -> (total_symbols st <= scanned (vars st))%nat) ->
  exec schedule st = Some st' ->
  db_writer st' = Stopped -> (total_symbols st' <= scanned (vars st'))%nat.
Proof.
  revert st. induction schedule as [|c later IH]; intros st Hok Hlate; cbn.
  - intros [= <-]. exact Hlate.
  - destruct (step c st) as [st1|] eqn:Hstep; [| discriminate].
    apply IH; [exact (step_ok _ _ _ Hok Hstep) |].
    exact (step_writer_late _ _ _ Hok Hlate Hstep).
Qed.

Lemma tasks_cases (ts : list task) :
  Forall (fun t => t = Finished) ts
  \/ (exists i rest, ts !! i = Some (Holding rest))
  \/ ((exists i block, ts !! i = Some (Acquiring block))
      /\ count in_block ts = O).
Proof.
  induction ts as [|t ts IH]; [left; constructor |].
  destruct t as [block|rest|].
  - destruct IH as [Hfin | [(i & rest & Hi) | ((i & b & Hi) & Hnone)]].
    + right. right. split; [exists O, block; reflexivity |].
      cbn. clear - Hfin. induction Hfin as [|t ts -> _ IH]; [reflexivity | exact IH].
    + right. left. exists (S i), rest. exact Hi.
    + right. right. split; [exists O, block; reflexivity | exact Hnone].
  - right. left. exists O, rest. reflexivity.
  - destruct IH as [Hfin | [(i & rest & Hi) | ((i & b & Hi) & Hnone)]].
    + left. constructor; [reflexivity | exact Hfin].
    + right. left. exists (S i), rest. exact Hi.
    + right. right. split; [exists (S i), b; exact Hi | exact Hnone].
Qed.

(** A scan that is not over, finished or aborted, can always go on with
    something other than an idle poll of the writer: an evaluation in
    flight can be resumed, an instrument can be admitted when none is in
    flight, and the writer has a row to take or may stop when every
    evaluation is over. *)
Lemma scan_never_stuck (run : Z) (symbols : list string)
    (schedule : list choice) (st : scan) :
  exec schedule (start run symbols) = Some st ->
  ~ finished st ->
  ~ aborted st ->
  exists c st',
    step c st = Some st'
    /\ (c = Writer_turn ->
        insert_queue (vars st) <> []
        \/ (total_symbols st <= scanned (vars st))%nat).
Proof.
  intros Hexec Hnot Hgoing.
  pose proof (exec_ok _ _ _ (start_ok run symbols) Hexec)
    as (Htotal & Hscanned & Hall).
  pose proof (exec_keeps_slots _ _ _ Hexec) as Hslots.
  rewrite start_in_flight in Hslots. cbn [start semaphore] in Hslots.
  destruct (tasks_cases (tasks st))
    as [Hfin | [(i & rest & Hi) | ((i & block & Hi) & Hnone)]].
  - rewrite (count_started_finished _ Hfin) in Hscanned.
    destruct (db_writer st) as [| | e] eqn:Hw;
      [| exfalso; apply Hnot; split; assumption
       | exfalso; apply Hgoing; exists e; exact Hw].
    exists Writer_turn. cbn. unfold writer_turn. rewrite Hw.
    destruct (insert_queue (vars st)) as [| row_data rest].
    + replace (total_symbols st <=? scanned (vars st))%nat with true
        by (symmetry; apply Nat.leb_le; lia).
      eexists. split; [reflexivity |]. intros _. right. lia.
    + destruct (bind_row row_data);
        (eexists; split; [reflexivity |]; intros _; left; discriminate).
  - pose proof (proj1 (Forall_lookup _ _) Hall _ _ Hi) as (Hsusp & _).
    exists (Resume i Http_raises). cbn. unfold resume. rewrite Hi.
    destruct rest as [|rq k|secs k|]; try contradiction;
      eexists; (split; [reflexivity | discriminate]).
  - exists (Resume i Http_raises). cbn. unfold resume. rewrite Hi.
    unfold in_flight in Hslots. rewrite Hnone in Hslots.
    destruct (semaphore st) as [|slots]; [lia |].
    eexists. split; [reflexivity | discriminate].
Qed.

(** C5, as amended.  Whatever the list of instruments and however the
    evaluations and the writer were interleaved: the writer has left its
    loop only if [scanned] had reached the total.  Once every evaluation
    is over, [scanned] equals the number of instruments and the scan is
    over within as many turns of the writer as there are rows in the
    queue, and one, after which nothing can run.  It is over in one of
    two ways: the writer has left its loop, and the scan reports a
    scanned count equal to the length of the list; or an [INSERT] has
    raised, and the scan ends with the exception and reports nothing.
    When SQLite accepts every row that waits in the queue -- no NaN open
    interest, no integer beyond 64 bits -- and no [INSERT] has raised so
    far, it is the first.  Until it is over the scan is never stuck. *)
Theorem scan_terminates (run : Z) (symbols : list string)
    (schedule : list choice) (st : scan) :
  exec schedule (start run symbols) = Some st ->
  (db_writer st = Stopped -> (length symbols <= scanned (vars st))%nat)
  /\ (Forall (fun t => t = Finished) (tasks st) ->
      scanned (vars st) = length symbols
      /\ (exists turns st',
            (turns <= writer_turns_left st)%nat
            /\ exec (repeat Writer_turn turns) st = Some st'
            /\ (forall c, step c st' = None)
            /\ (finished st'
                /\ report st'
                   = Done (length symbols) (length symbols)
                       (passed_traders (vars st')) (returned st')
                \/ aborted st'))
      /\ (Forall storable (insert_queue (vars st)) ->
          ~ aborted st ->
          exists st',
            exec (repeat Writer_turn (writer_turns_left st)) st = Some st'
            /\ finished st'
            /\ report st'
               = Done (length symbols) (length symbols)
                   (passed_traders (vars st')) (returned st'))
      /\ (forall later st',
            exec later st = Some st' ->
            (length later <= writer_turns_left st)%nat))
  /\ (~ finished st ->
      ~ aborted st ->
      exists c st',
        step c st = Some st'
        /\ (c = Writer_turn ->
            insert_queue (vars st) <> []
            \/ (total_symbols st <= scanned (vars st))%nat)).
Proof.
  intros Hexec.
  assert (Hlen : total_symbols st = length symbols)
    by exact (exec_total _ _ _ Hexec).
  split; [| split; [| exact (scan_never_stuck _ _ _ _ Hexec)]].
  { rewrite <- Hlen.
    apply (exec_writer_late schedule (start run symbols) st
             (start_ok run symbols)); [| exact Hexec].
    cbn. discriminate. }
  intros Hfin.
  pose proof (exec_ok _ _ _ (start_ok run symbols) Hexec)
    as (Htotal & Hscanned & _).
  rewrite (count_started_finished _ Hfin) in Hscanned.
  assert (Hreached : (total_symbols st <= scanned (vars st))%nat) by lia.
  split; [lia |]. split; [| split].
  - destruct (writer_ends _ st eq_refl Hreached)
      as (turns & st' & Hle & Hrun & Hend & Htasks & Htot & Hsc).
    exists turns, st'. split; [exact Hle |]. split; [exact Hrun |]. split.
    + apply over_is_over; [rewrite Htasks; exact Hfin |].
      destruct Hend as [-> | [e ->]]; discriminate.
    + destruct Hend as [Hstop | Habort]; [left | right; exact Habort].
      split; [split; [rewrite Htasks; exact Hfin | exact Hstop] |].
      unfold report, returned. rewrite Hsc, Htot. f_equal; lia.
  - intros Hrows Hgoing.
    destruct (writer_drains _ st eq_refl Hgoing Hreached Hrows)
      as (st' & Hrun & Hstop & Htasks & Htot & Hsc).
    exists st'. split; [exact Hrun |]. split.
    + split; [rewrite Htasks; exact Hfin | exact Hstop].
    + unfold report, returned. rewrite Hsc, Htot. f_equal; lia.
  - intros later st' Hlater.
    exact (nothing_but_the_writer _ _ _ Hfin Hreached Hlater).
Qed.

(** * More about one evaluation *)

Local Transparent evaluation.

(** The five shapes of an evaluation.  It stops after the ratio stage or
    after the open-interest request, either by [return] -- and then
    without the pacing sleep -- or on an exception, which is printed and
    followed by the sleep; or it goes through the four further requests,
    enqueues its rows and sleeps. *)
Lemma evaluation_shape net run sym :
  let trace := evaluation net run sym in
  trace = ratio_stage sym
  \/ (exists e,
        trace = ratio_stage sym ++ [Did (Print_error sym e); Slept SLEEP_S])
  \/ trace = ratio_stage sym ++ [Did Passed_traders_incr; Sent (oi_request sym)]
  \/ (exists e,
        trace = ratio_stage sym
                ++ [Did Passed_traders_incr; Sent (oi_request sym);
                    Did (Print_error sym e); Slept SLEEP_S])
  \/ (exists rows,
        rows <> []
        /\ trace = ratio_stage sym
                   ++ [Did Passed_traders_incr; Sent (oi_request sym);
                       Sent (premium_request sym); Sent (ticker_request sym);
                       Sent (klines_request sym)]
                   ++ map (fun r => Did (Queue_put r)) rows
                   ++ [Slept SLEEP_S]).
Proof.
  intros trace. assert (E : trace = evaluation net run sym) by reflexivity.
  clearbody trace. revert E.
  unfold ratio_stage, ratio_requests, oi_request, premium_request,
    ticker_request, klines_request.
  unfold_evaluation.
  repeat branch.
  all: intros ->.
  all: try match goal with
           | H : negb _ = _ |- _ => cbn in H; discriminate H
           end.
  all: try (left; reflexivity).
  all: try (right; left; eexists; reflexivity).
  all: try (right; right; left; reflexivity).
  all: try (right; right; right; left; eexists; reflexivity).
  all: right; right; right; right.
  all: first
    [ eexists [_; _]; split; [discriminate | reflexivity]
    | eexists [_]; split; [discriminate | reflexivity] ].
Qed.

(** What follows the ratio stage when the three lenses delivered data. *)
Lemma ratio_stage_outcomes net run sym :
  let trace := evaluation net run sym in
  truthy (top_acc_of net sym) = true ->
  truthy (glob_acc_of net sym) = true ->
  truthy (top_pos_of net sym) = true ->
  (forall e,
      f_get (top_acc_of net sym) "longAccount" = Raised e ->
      trace = ratio_stage sym ++ [Did (Print_error sym e); Slept SLEEP_S])
  /\ (forall ta_long ta_short ga_long ga_short tp_long tp_short ts,
        f_get (top_acc_of net sym) "longAccount" = Value (Some ta_long) ->
        f_get (top_acc_of net sym) "shortAccount" = Value (Some ta_short) ->
        f_get (glob_acc_of net sym) "longAccount" = Value (Some ga_long) ->
        f_get (glob_acc_of net sym) "shortAccount" = Value (Some ga_short) ->
        f_get (top_pos_of net sym) "longAccount" = Value (Some tp_long) ->
        f_get (top_pos_of net sym) "shortAccount" = Value (Some tp_short) ->
        dict_get (top_acc_of net sym) "timestamp" (JInt 0) = Value ts ->
        (forall e,
            py_int ts = Raised e ->
            trace = ratio_stage sym
                    ++ [Did (Print_error sym e); Slept SLEEP_S])
        /\ (forall ts_ms,
              py_int ts = Value ts_ms ->
              passed_cheap_filter trace
              = setup_a ta_short ga_short tp_long
                || setup_b ta_long ga_long tp_short
              /\ (setup_a ta_short ga_short tp_long
                  || setup_b ta_long ga_long tp_short = false ->
                  trace = ratio_stage sym))).
Proof.
  intros trace. assert (E : trace = evaluation net run sym) by reflexivity.
  clearbody trace. revert E.
  unfold ratio_stage, ratio_requests.
  unfold_evaluation.
  repeat branch.
  all: intros -> Ht1 Ht2 Ht3.
  all: try match goal with
           | H : negb _ = _ |- _ => cbn in H; discriminate H
           end.
  all: try match goal with
           | H : _ || _ || _ = true |- _ =>
               rewrite Ht1, Ht2, Ht3 in H; discriminate H
           end.
  all: split;
    [ intros e' He'; try congruence
    | intros ta_long ta_short ga_long ga_short tp_long tp_short ts
        H1 H2 H3 H4 H5 H6 Hts;
      split; [intros e' He' | intros ts_ms' Hms'] ].
  all: try congruence.
  all: try (replace e' with e by congruence; reflexivity).
  all: repeat match goal with
              | H : negb _ = true |- _ => apply negb_true_iff in H
              | H : negb _ = false |- _ => apply negb_false_iff in H
              end.
  all: simplify_eq; use_setups.
  all: split; [reflexivity | intros Hnone; try discriminate Hnone; reflexivity].
Qed.

(** An evaluation cannot tell a call that failed from an answer [null].
    [http_get_async] turns every failure -- the call raising, a status
    other than 200, a body that is no JSON -- into [None]; the evaluator
    sees nothing else of the network, and [None] is also what the body
    [null] decodes to.  Two networks whose answers read the same through
    [http_get_async] give the same evaluation: the same requests, counters
    and messages, the same rows, the same sleep.  In particular, when
    every call fails the evaluation ends after the three ratio requests,
    silently: nothing is printed. *)
Theorem failed_calls_read_as_no_data net net' run sym :
  (forall rq,
      http_get_async_result (net rq) = http_get_async_result (net' rq)) ->
  evaluation net run sym = evaluation net' run sym
  /\ ((forall rq, http_get_async_result (net rq) = JNull) ->
      evaluation net run sym = ratio_stage sym).
Proof.
  intros Hsame. split.
  - unfold_evaluation.
    repeat (rewrite <- ?Hsame; branch).
    all: rewrite <- ?Hsame; reflexivity.
  - intros Hnone. unfold ratio_stage, ratio_requests. unfold_evaluation.
    rewrite !Hnone. reflexivity.
Qed.

Global Opaque evaluation.

Lemma rows_put_queued (rows : list row) :
  rows_put (map (fun r => Did (Queue_put r)) rows) = rows.
Proof.
  unfold rows_put. induction rows as [| r rows IH]; cbn; [reflexivity |].
  first [exact IH | f_equal; exact IH].
Qed.

Lemma requests_sent_queued (rows : list row) :
  requests_sent (map (fun r => Did (Queue_put r)) rows) = [].
Proof.
  unfold requests_sent. induction rows as [| r rows IH]; cbn; [reflexivity |].
  first [exact IH | f_equal; exact IH].
Qed.

Lemma sleeps_queued (rows : list row) :
  sleeps (map (fun r => Did (Queue_put r)) rows) = [].
Proof.
  unfold sleeps. induction rows as [| r rows IH]; cbn; [reflexivity |].
  first [exact IH | f_equal; exact IH].
Qed.

Lemma errors_printed_queued (rows : list row) :
  errors_printed (map (fun r => Did (Queue_put r)) rows) = [].
Proof.
  unfold errors_printed. induction rows as [| r rows IH]; cbn; [reflexivity |].
  first [exact IH | f_equal; exact IH].
Qed.

(** What can be observed of an evaluation, shape by shape: the requests
    sent, the rows enqueued, the pacing sleeps and the errors printed. *)
Lemma evaluation_observed net run sym :
  let trace := evaluation net run sym in
  (requests_sent trace = ratio_requests sym /\ rows_put trace = []
   /\ sleeps trace = [] /\ errors_printed trace = [])
  \/ (exists e,
        requests_sent trace = ratio_requests sym /\ rows_put trace = []
        /\ sleeps trace = [SLEEP_S] /\ errors_printed trace = [(sym, e)])
  \/ (requests_sent trace = ratio_requests sym ++ [oi_request sym]
      /\ rows_put trace = [] /\ sleeps trace = []
      /\ errors_printed trace = [])
  \/ (exists e,
        requests_sent trace = ratio_requests sym ++ [oi_request sym]
        /\ rows_put trace = [] /\ sleeps trace = [SLEEP_S]
        /\ errors_printed trace = [(sym, e)])
  \/ (requests_sent trace
      = ratio_requests sym
        ++ [oi_request sym; premium_request sym; ticker_request sym;
            klines_request sym]
      /\ rows_put trace <> [] /\ sleeps trace = [SLEEP_S]
      /\ errors_printed trace = []).
Proof.
  intros trace.
  destruct (evaluation_shape net run sym)
    as [E | [(e & E) | [E | [(e & E) | (rows & Hrows & E)]]]];
    fold trace in E; rewrite E; clear E.
  - left. repeat split.
  - right; left. exists e. repeat split.
  - right; right; left. repeat split.
  - right; right; right; left. exists e. repeat split.
  - right; right; right; right.
    unfold requests_sent, rows_put, sleeps, errors_printed.
    rewrite !omap_app.
    fold (requests_sent (map (fun r => Did (Queue_put r)) rows)).
    fold (rows_put (map (fun r => Did (Queue_put r)) rows)).
    fold (sleeps (map (fun r => Did (Queue_put r)) rows)).
    fold (errors_printed (map (fun r => Did (Queue_put r)) rows)).
    rewrite requests_sent_queued, rows_put_queued, sleeps_queued,
      errors_printed_queued.
    cbn. rewrite app_nil_r. auto.
Qed.

(** The requests of an evaluation follow its stages: the three ratio
    requests and nothing else; or these and the open-interest request;
    or all seven, in the order ratios, open interest, premium index,
    24-hour ticker, 2-hour candle.  The three enrichment requests are sent
    exactly when the evaluation enqueues a row. *)
Theorem requests_follow_the_stages net run sym :
  let trace := evaluation net run sym in
  (requests_sent trace = ratio_requests sym /\ rows_put trace = [])
  \/ (requests_sent trace = ratio_requests sym ++ [oi_request sym]
      /\ rows_put trace = [])
  \/ (requests_sent trace
      = ratio_requests sym
        ++ [oi_request sym; premium_request sym; ticker_request sym;
            klines_request sym]
      /\ rows_put trace <> []).
Proof.
  intros trace.
  destruct (evaluation_observed net run sym)
    as [H | [(e & H) | [H | [(e & H) | H]]]]; fold trace in H; tauto.
Qed.

(** The pacing sleep [asyncio.sleep(SLEEP_S)] is taken at most once, and
    only by an evaluation that enqueued a row or printed an error: an
    evaluation that ends in one of the [return]s leaves without sleeping.
    At most one error is printed, under the name of the instrument, and
    an evaluation that prints one enqueues nothing. *)
Theorem sleep_follows_rows_or_an_error net run sym :
  let trace := evaluation net run sym in
  (sleeps trace = [] /\ rows_put trace = [] /\ errors_printed trace = [])
  \/ (sleeps trace = [SLEEP_S]
      /\ (rows_put trace <> [] /\ errors_printed trace = []
          \/ rows_put trace = []
             /\ exists e, errors_printed trace = [(sym, e)])).
Proof.
  intros trace.
  destruct (evaluation_observed net run sym)
    as [H | [(e & H) | [H | [(e & H) | H]]]]; fold trace in H.
  - left. tauto.
  - right. split; [tauto |]. right. split; [tauto |]. exists e. tauto.
  - left. tauto.
  - right. split; [tauto |]. right. split; [tauto |]. exists e. tauto.
  - right. split; [tauto |]. left. tauto.
Qed.

(** A timestamp that [int] does not convert ([null], a list, a string
    that is no integer, a NaN) is an error of the evaluation, whatever the
    six fractions are: the conversion precedes the threshold test.  The
    error is printed, nothing is enqueued and the open interest is not
    asked for. *)
Theorem unconvertible_timestamp_is_an_error net run sym
    ta_long ta_short ga_long ga_short tp_long tp_short ts e :
  truthy (top_acc_of net sym) = true ->
  truthy (glob_acc_of net sym) = true ->
  truthy (top_pos_of net sym) = true ->
  f_get (top_acc_of net sym) "longAccount" = Value (Some ta_long) ->
  f_get (top_acc_of net sym) "shortAccount" = Value (Some ta_short) ->
  f_get (glob_acc_of net sym) "longAccount" = Value (Some ga_long) ->
  f_get (glob_acc_of net sym) "shortAccount" = Value (Some ga_short) ->
  f_get (top_pos_of net sym) "longAccount" = Value (Some tp_long) ->
  f_get (top_pos_of net sym) "shortAccount" = Value (Some tp_short) ->
  dict_get (top_acc_of net sym) "timestamp" (JInt 0) = Value ts ->
  py_int ts = Raised e ->
  errors_printed (evaluation net run sym) = [(sym, e)]
  /\ rows_put (evaluation net run sym) = []
  /\ requests_sent (evaluation net run sym) = ratio_requests sym
  /\ passed_cheap_filter (evaluation net run sym) = false.
Proof.
  intros T1 T2 T3 H1 H2 H3 H4 H5 H6 Hts Hint.
  destruct (ratio_stage_outcomes net run sym T1 T2 T3) as [_ Hparsed].
  destruct (Hparsed _ _ _ _ _ _ _ H1 H2 H3 H4 H5 H6 Hts) as [Herr _].
  rewrite (Herr e Hint). repeat split.
Qed.

(** When the six fractions parse, the timestamp converts and neither
    setup holds, the evaluation is over after the three ratio requests:
    no open-interest request, no row, no error and no pacing sleep. *)
Theorem no_setup_ends_the_evaluation net run sym
    ta_long ta_short ga_long ga_short tp_long tp_short ts_ms :
  ratios_parsed net sym ta_long ta_short ga_long ga_short tp_long tp_short
    ts_ms ->
  setup_a ta_short ga_short tp_long = false ->
  setup_b ta_long ga_long tp_short = false ->
  evaluation net run sym = ratio_stage sym
  /\ requests_sent (evaluation net run sym) = ratio_requests sym
  /\ rows_put (evaluation net run sym) = []
  /\ sleeps (evaluation net run sym) = [].
Proof.
  intros ((T1 & T2 & T3) & (H1 & H2 & H3 & H4 & H5 & H6) & ts & Hts & Hint)
    Ha Hb.
  destruct (ratio_stage_outcomes net run sym T1 T2 T3) as [_ Hparsed].
  destruct (Hparsed _ _ _ _ _ _ _ H1 H2 H3 H4 H5 H6 Hts) as [_ Hok].
  destruct (Hok ts_ms Hint) as [_ Hnone].
  rewrite Hnone by (rewrite Ha, Hb; reflexivity).
  repeat split.
Qed.

(** The gates decide the rows, and nothing else does.  When the six
    fractions parse, the timestamp converts, and the open interest is
    there, parses and is not below [MIN_OI_USDT], the evaluation enqueues
    one row for each setup that holds, Setup A first, whatever the premium
    index, the ticker and the candle return: a failed enrichment call
    leaves its columns at [None] and costs no row. *)
Theorem admitted_instrument_yields_its_hits net run sym
    ta_long ta_short ga_long ga_short tp_long tp_short ts_ms oi :
  ratios_parsed net sym ta_long ta_short ga_long ga_short tp_long tp_short
    ts_ms ->
  f_get (oi_of net sym) "sumOpenInterestValue" = Value (Some oi) ->
  float_lt_int oi MIN_OI_USDT = false ->
  rows_put (evaluation net run sym)
  = hits net run sym ts_ms oi ta_long ta_short ga_long ga_short tp_long
      tp_short.
Proof.
  intros Hparsed Hoi Hlt.
  pose proof Hparsed
    as ((T1 & T2 & T3) & (H1 & H2 & H3 & H4 & H5 & H6) & ts & Hts & Hint).
  destruct (ratio_stage_outcomes net run sym T1 T2 T3) as [_ Hstage].
  destruct (Hstage _ _ _ _ _ _ _ H1 H2 H3 H4 H5 H6 Hts) as [_ Hok].
  destruct (Hok ts_ms Hint) as [Hpass Hnone].
  destruct (setup_a ta_short ga_short tp_long || setup_b ta_long ga_long tp_short)
    eqn:Hab.
  - destruct (evaluation_cases net run sym)
      as [(_ & _ & Hno & _)
         | (ta_long' & ta_short' & ga_long' & ga_short' & tp_long' & tp_short'
            & ts_ms' & Hparsed' & _ & _
            & [(_ & _ & Hrefused) | (oi' & Hoi' & _ & _ & Hrows)])].
    + congruence.
    + exfalso. apply Hrefused. exists oi. split; assumption.
    + destruct Hparsed'
        as (_ & (E1 & E2 & E3 & E4 & E5 & E6) & ts' & Hts' & Hint').
      rewrite Hrows.
      assert (ts' = ts) as -> by congruence.
      f_equal; congruence.
  - rewrite (Hnone eq_refl). apply orb_false_elim in Hab as [Ha Hb].
    unfold hits. rewrite Ha, Hb. reflexivity.
Qed.

(** An evaluation enqueues at most two rows; they carry the run and the
    instrument of the evaluation, and their primary keys
    [(run_id, symbol, setup)] differ: the rows of one evaluation never
    replace one another in [scan_hits]. *)
Theorem rows_of_an_evaluation_have_distinct_keys net run sym :
  (length (rows_put (evaluation net run sym)) <= 2)%nat
  /\ NoDup (map primary_key (rows_put (evaluation net run sym)))
  /\ Forall (fun r => run_id r = run /\ symbol r = sym)
       (rows_put (evaluation net run sym)).
Proof.
  destruct (evaluation_cases net run sym)
    as [(Hrows & _)
       | (ta_long & ta_short & ga_long & ga_short & tp_long & tp_short & ts_ms
          & _ & _ & _ & [(Hrows & _) | (oi & _ & _ & _ & Hrows)])];
    rewrite Hrows.
  1, 2: split; [cbn; lia | split; [constructor | constructor]].
  unfold hits.
  destruct (setup_a ta_short ga_short tp_long),
    (setup_b ta_long ga_long tp_short); cbn.
  all: split; [lia |].
  all: split; [| repeat constructor].
  all: repeat constructor.
  all: rewrite ?elem_of_cons, ?elem_of_nil; try tauto.
  intros [E | []]. discriminate E.
Qed.

(** [get_premium_data_async] is all or nothing.  The two conversions
    share one [try]: when the premium index carries "lastFundingRate" or
    "markPrice" with a value that [float] does not convert, both columns
    of every row of the evaluation are [None], whatever the other field
    holds. *)
Theorem unreadable_premium_field_blanks_both_columns net run sym r
    (fields : list (string * json)) (key : string) (v : json) (e : exn) :
  r ∈ rows_put (evaluation net run sym) ->
  http_get_async_result (net (premium_request sym)) = JObj fields ->
  key = "lastFundingRate" \/ key = "markPrice" ->
  assoc key fields = Some v ->
  py_float v = Raised e ->
  funding_rate r = None /\ current_price r = None.
Proof.
  intros Hr Hdata Hkey Hv He.
  assert (Hboth : premium_of net sym = (None, None)).
  { unfold premium_of. fold (premium_request sym). rewrite Hdata.
    assert (Ht : truthy (JObj fields) = true)
      by (destruct fields; [destruct Hkey; subst; discriminate | reflexivity]).
    unfold premium_data. rewrite Ht. unfold float_if_present.
    destruct Hkey as [-> | ->]; rewrite Hv, He.
    - reflexivity.
    - destruct (assoc "lastFundingRate" fields) as [w |];
        [destruct (py_float w) |]; reflexivity. }
  apply row_put_inv in Hr
    as (? & ? & ? & ? & ? & ? & ? & ? & _ & _ & _ & [[-> _] | [-> _]]);
    cbn [funding_rate current_price hit]; rewrite Hboth; auto.
Qed.

(** * Evaluators and the writer under a schedule *)

Lemma run_to_end_trace {A : Type} net (p : coro A) (trace : list event) :
  (run_to_end net p trace).2 = trace ++ (run_to_end net p []).2.
Proof.
  revert trace.
  induction p as [u | rq k IH | secs k IH | a k IH]; intros trace; cbn.
  - rewrite app_nil_r. reflexivity.
  - rewrite (IH (net rq) (trace ++ [Sent rq])), (IH (net rq) [Sent rq]).
    rewrite app_assoc. reflexivity.
  - rewrite (IH (trace ++ [Slept secs])), (IH [Slept secs]).
    rewrite app_assoc. reflexivity.
  - rewrite (IH (trace ++ [Did a])), (IH [Did a]).
    rewrite app_assoc. reflexivity.
Qed.

(** A coroutine run to its end appends its rows to the queue and leaves
    [inserted] alone. *)
Lemma run_vars_queue {A : Type} net (total : nat) (p : coro A) (s : shared) :
  insert_queue (run_vars net total p s)
  = insert_queue s ++ rows_put (run_to_end net p []).2
  /\ inserted (run_vars net total p s) = inserted s.
Proof.
  revert s.
  induction p as [u | rq k IH | secs k IH | a k IH]; intros s; cbn.
  - rewrite app_nil_r. auto.
  - rewrite run_to_end_trace. apply IH.
  - rewrite run_to_end_trace. apply IH.
  - rewrite run_to_end_trace. unfold rows_put. rewrite omap_app.
    fold (rows_put (run_to_end net k []).2).
    destruct (IH (perform total a s)) as [-> ->].
    unfold perform.
    destruct a; [| destruct (scanned s mod 25 =? 0)%nat | | |];
      cbn; rewrite <- ?app_assoc; auto.
Qed.

(** Task [i], resumed with the answers of [net] and nothing else
    scheduled in between, runs to its end and gives its slot back. *)
Lemma task_runs net (p : coro unit) (i slots : nat) (st : scan) (s : shared) :
  (i < length (tasks st))%nat ->
  exists st',
    exec (map (Resume i) (answers net p))
      (settle i slots st (advance (total_symbols st) p s)) = Some st'
    /\ total_symbols st' = total_symbols st
    /\ tasks st' = <[i := Finished]> (tasks st)
    /\ semaphore st' = S slots
    /\ vars st' = run_vars net (total_symbols st) p s
    /\ scan_hits st' = scan_hits st
    /\ db_writer st' = db_writer st.
Proof.
  revert st s.
  induction p as [u | rq k IH | secs k IH | a k IH]; intros st s Hi.
  - eexists. split; [reflexivity |]. cbn. auto 10.
  - cbn [answers map advance exec step].
    unfold resume at 1. cbn [settle fst snd tasks].
    rewrite list_lookup_insert_eq by exact Hi.
    cbn [semaphore total_symbols vars].
    match goal with
    | |- context [settle i slots ?st1 _] =>
        destruct (IH (net rq) st1 s) as (st' & Hexec & H1 & H2 & H3 & H4 & H5 & H6)
    end.
    { cbn. rewrite length_insert. exact Hi. }
    exists st'. split; [exact Hexec |].
    cbn in H1, H2, H4, H5, H6. rewrite list_insert_insert_eq in H2. auto 10.
  - cbn [answers map advance exec step].
    unfold resume at 1. cbn [settle fst snd tasks].
    rewrite list_lookup_insert_eq by exact Hi.
    cbn [semaphore total_symbols vars].
    match goal with
    | |- context [settle i slots ?st1 _] =>
        destruct (IH st1 s) as (st' & Hexec & H1 & H2 & H3 & H4 & H5 & H6)
    end.
    { cbn. rewrite length_insert. exact Hi. }
    exists st'. split; [exact Hexec |].
    cbn in H1, H2, H4, H5, H6. rewrite list_insert_insert_eq in H2. auto 10.
  - cbn [answers advance run_vars]. apply IH. exact Hi.
Qed.

(** The block of an evaluator counts the instrument and stands at the
    request for the top-account ratio. *)
Lemma process_symbol_block_head (run : Z) (sym : string) :
  exists k,
    process_symbol_block run sym
    = Do Scanned_incr
        (Do Progress_report
           (Await_get
              (latest_request "/futures/data/topLongShortAccountRatio" sym)
              k)).
Proof. eexists. reflexivity. Qed.

Local Transparent evaluation.

(** The writer may give up before the rows arrive.  [scanned] counts an
    instrument when its evaluation begins, and the writer leaves its loop
    at the first empty poll with [scanned >= total_symbols].  In a scan
    of one instrument whose requests are answered by [net], let that poll
    come while the evaluator awaits its first answer: the scan then ends
    with every row of the evaluation still in the queue, nothing in
    [scan_hits], and 0 returned and reported as the number of rows. *)
Theorem writer_may_stop_before_the_rows_arrive net run sym :
  exists st,
    exec (schedule_writer_first net run sym) (start run [sym]) = Some st
    /\ finished st
    /\ insert_queue (vars st) = rows_put (evaluation net run sym)
    /\ scan_hits st = []
    /\ returned st = 0%nat
    /\ report st = Done 1 1 (passed_traders (vars st)) 0.
Proof.
  destruct (process_symbol_block_head run sym) as [k Hk].
  set (rq := latest_request "/futures/data/topLongShortAccountRatio" sym)
    in Hk.
  set (s1 := {| scanned := 1; passed_traders := 0; inserted := 0;
                insert_queue := []; stdout := [Starting 1] |}).
  set (st0 := {| total_symbols := 1;
                 tasks := [Acquiring (Do Scanned_incr
                                        (Do Progress_report
                                           (Await_get rq k)))];
                 semaphore := 10; vars := s1; scan_hits := [];
                 db_writer := Stopped |}).
  destruct (task_runs net (Await_get rq k) 0 9 st0 s1)
    as (st & Hexec & Htotal & Htasks & _ & Hvars & Hhits & Hwriter);
    [cbn; lia |].
  assert (Hrun : exec (schedule_writer_first net run sym) (start run [sym])
                 = Some st).
  { unfold schedule_writer_first, start, process_symbol. cbn [map length].
    rewrite Hk. exact Hexec. }
  exists st. split; [exact Hrun |].
  destruct (exec_ok _ _ _ (start_ok run [sym]) Hrun) as (_ & Hscanned & _).
  destruct (run_vars_queue net 1
              (Do Scanned_incr (Do Progress_report (Await_get rq k)))
              {| scanned := 0; passed_traders := 0; inserted := 0;
                 insert_queue := []; stdout := [Starting 1] |})
    as [Hqueue Hinserted].
  change (run_vars net 1 _ _)
    with (run_vars net (total_symbols st0) (Await_get rq k) s1)
    in Hqueue, Hinserted.
  rewrite <- Hvars in Hqueue, Hinserted.
  unfold finished, returned, report, evaluation.
  rewrite Hk, Hscanned, Htasks, Hwriter, Hhits, Htotal, Hqueue, Hinserted.
  cbn. repeat split; auto.
Qed.

Global Opaque evaluation.

(** * The counters and the rows of a scan *)

Lemma may_do_bind {A B : Type} run sym (m : coro A) (k : A -> coro B)
    (g : progress) :
  may_do run sym m g ->
  (forall a g', may_do run sym (k a) g') ->
  may_do run sym (bind m k) g.
Proof.
  intros Hm Hk. revert g Hm.
  induction m as [a | rq c IH | secs c IH | a c IH]; intros g Hm; cbn in *;
    auto.
  destruct a; auto; destruct g; auto.
  destruct Hm as (H1 & H2 & H3 & H4 & H5). auto 10.
Qed.

Lemma process_symbol_block_may_do (run : Z) (sym : string) :
  may_do run sym (process_symbol_block run sym) Not_passed.
Proof.
  unfold process_symbol_block. cbn [may_do].
  apply may_do_bind.
  - unfold process_symbol_try. cbn.
    repeat first
      [ exact I
      | reflexivity
      | apply not_elem_of_nil
      | (apply not_elem_of_cons; split; [discriminate | apply not_elem_of_nil])
      | (left; reflexivity)
      | (right; reflexivity)
      | split
      | match goal with |- forall _ : http_result, _ => intro end
      | branch ].
  - intros [| | e] g'; cbn; exact I.
Qed.

(** What a coroutine does up to its next suspension. *)
Lemma advance_does run sym (total : nat) (p : coro unit) (s : shared)
    (g : progress) :
  may_do run sym p g ->
  valid_progress g ->
  exists g' rows,
    may_do run sym (advance total p s).1 g'
    /\ valid_progress g'
    /\ (passed_traders (advance total p s).2 + Nat.b2n (has_passed g)
        = passed_traders s + Nat.b2n (has_passed g'))%nat
    /\ inserted (advance total p s).2 = inserted s
    /\ insert_queue (advance total p s).2 = insert_queue s ++ rows
    /\ setups_put g' = setups_put g ++ map setup rows
    /\ Forall (fun r => run_id r = run /\ symbol r = sym) rows.
Proof.
  revert s g.
  induction p as [u | rq k IH | secs k IH | a k IH]; intros s g Hp Hg.
  1-3: exists g, []; cbn; rewrite !app_nil_r; auto 10.
  cbn [advance]. destruct a as [| | | r | sym' e]; cbn [may_do] in Hp.
  - destruct (IH (perform total Scanned_incr s) g Hp Hg)
      as (g' & rows & H). exists g', rows. exact H.
  - destruct (IH (perform total Progress_report s) g Hp Hg)
      as (g' & rows & H). exists g', rows.
    unfold perform in *. destruct (scanned s mod 25 =? 0)%nat; exact H.
  - destruct g as [| done]; [| destruct Hp].
    destruct (IH (perform total Passed_traders_incr s) (Passed []) Hp)
      as (g' & rows & H1 & H2 & H3 & H4 & H5 & H6 & H7).
    { split; cbn; constructor. }
    exists g', rows. cbn in *. repeat split; auto; try apply H2. lia.
  - destruct g as [| done]; [destruct Hp |].
    destruct Hp as (Hrun & Hsym & Htag & Hnew & Hk).
    destruct Hg as [Hnodup Htags]. cbn in Hnodup, Htags.
    destruct (IH (perform total (Queue_put r) s) (Passed (done ++ [setup r]))
                Hk)
      as (g' & rows & H1 & H2 & H3 & H4 & H5 & H6 & H7).
    { split; cbn.
      - apply NoDup_app. split; [exact Hnodup |]. split.
        + intros x Hx Hx'. apply list_elem_of_singleton in Hx'. subst x.
          contradiction.
        + apply NoDup_singleton.
      - apply Forall_app. split; [exact Htags |].
        constructor; [exact Htag | constructor]. }
    exists g', (r :: rows). cbn in *.
    rewrite <- !app_assoc in *. cbn in *. repeat split; auto; try apply H2.
  - destruct (IH (perform total (Print_error sym' e) s) g Hp Hg)
      as (g' & rows & H). exists g', rows. exact H.
Qed.

Lemma sum_list_insert {X : Type} (f : X -> nat) (l : list X) (i : nat)
    (x y : X) :
  l !! i = Some x ->
  (sum_list (map f (<[i := y]> l)) + f x = sum_list (map f l) + f y)%nat.
Proof.
  revert i. induction l as [| z l IH]; intros [| i] Hx; try discriminate Hx.
  - cbn in Hx. injection Hx as ->. cbn. lia.
  - change (<[S i := y]> (z :: l)) with (z :: <[i := y]> l).
    cbn in Hx. specialize (IH i Hx). cbn. lia.
Qed.

Lemma concat_insert_perm {X Y : Type} (F : X -> list Y) (l : list X)
    (i : nat) (x y : X) (new : list Y) :
  l !! i = Some x ->
  F y = F x ++ new ->
  concat (map F (<[i := y]> l)) ≡ₚ concat (map F l) ++ new.
Proof.
  intros Hx Hy. revert i Hx.
  induction l as [| z l IH]; intros [| i] Hx; try discriminate Hx.
  - cbn in Hx. injection Hx as ->. cbn. rewrite Hy, <- !app_assoc.
    apply Permutation_app_head, Permutation_app_comm.
  - change (<[S i := y]> (z :: l)) with (z :: <[i := y]> l).
    cbn in Hx. cbn. rewrite (IH i Hx), app_assoc. reflexivity.
Qed.

Lemma keys_of_rows run sym (rows : list row) :
  Forall (fun r => run_id r = run /\ symbol r = sym) rows ->
  map (fun tag => (run, sym, tag)) (map setup rows) = map primary_key rows.
Proof.
  induction 1 as [| r rows [Hrun Hsym] _ IH]; [reflexivity |].
  cbn. rewrite IH. unfold primary_key. rewrite Hrun, Hsym. reflexivity.
Qed.

Lemma insert_or_replace_fresh (s : stored) (table : list stored) :
  stored_key s ∉ map stored_key table ->
  insert_or_replace s table = table ++ [s].
Proof.
  intros Hfresh. unfold insert_or_replace. f_equal.
  induction table as [| old table IH]; [reflexivity |].
  cbn in Hfresh. apply not_elem_of_cons in Hfresh as [Hne Hfresh].
  rewrite filter_cons_True by congruence. rewrite IH by exact Hfresh.
  reflexivity.
Qed.

Lemma NoDup_of_submseteq {X : Type} (l k : list X) :
  l ⊆+ k -> NoDup k -> NoDup l.
Proof.
  intros Hsub Hk. apply submseteq_Permutation in Hsub as [k' Hk'].
  rewrite Hk' in Hk. apply NoDup_app in Hk as [Hl _]. exact Hl.
Qed.

Lemma elem_of_concat {X : Type} (x : X) (ls : list (list X)) :
  x ∈ concat ls <-> exists l, l ∈ ls /\ x ∈ l.
Proof.
  rewrite list_elem_of_In, in_concat.
  split; intros (l & H1 & H2); exists l; split; apply list_elem_of_In;
    assumption.
Qed.

Lemma task_does_valid run (ts : list task) (gs : list (string * progress)) :
  Forall2 (task_does run) ts gs -> Forall (fun x => valid_progress x.2) gs.
Proof.
  induction 1 as [| t x ts gs [Hx _] _ IH]; constructor; assumption.
Qed.

Lemma NoDup_keys_put run (gs : list (string * progress)) :
  NoDup (map fst gs) ->
  Forall (fun x => valid_progress x.2) gs ->
  NoDup (concat (map (keys_put run) gs)).
Proof.
  induction gs as [| [sym g] gs IH]; intros Hsyms Hvalid; cbn.
  - constructor.
  - cbn in Hsyms. apply NoDup_cons in Hsyms as [Hsym Hsyms].
    apply Forall_cons in Hvalid as [[Hg _] Hvalid]. cbn in Hg.
    apply NoDup_app. split; [| split].
    + unfold keys_put. cbn. apply NoDup_fmap_2; [| exact Hg].
      intros t1 t2 E. congruence.
    + intros key Hkey Hkey'. unfold keys_put in Hkey. cbn in Hkey.
      apply list_elem_of_fmap in Hkey as (tag & -> & _).
      apply elem_of_concat in Hkey' as (ks & Hks & Hin).
      apply list_elem_of_fmap in Hks as ([sym' g'] & -> & Hx).
      unfold keys_put in Hin. cbn in Hin.
      apply list_elem_of_fmap in Hin as (tag' & E & _).
      apply Hsym. apply list_elem_of_fmap. exists (sym', g').
      split; [cbn; congruence | exact Hx].
    + apply IH; assumption.
Qed.

(** Task [i] went on to its next suspension or to its end. *)
Lemma settle_accounted run symbols (i slots : nat) (st : scan)
    (gs : list (string * progress)) (t : task) (sym : string)
    (g g' : progress) (ps : coro unit * shared) (rows : list row) :
  accounted run symbols st gs ->
  tasks st !! i = Some t ->
  gs !! i = Some (sym, g) ->
  may_do run sym ps.1 g' ->
  valid_progress g' ->
  (passed_traders ps.2 + Nat.b2n (has_passed g)
   = passed_traders (vars st) + Nat.b2n (has_passed g'))%nat ->
  inserted ps.2 = inserted (vars st) ->
  insert_queue ps.2 = insert_queue (vars st) ++ rows ->
  setups_put g' = setups_put g ++ map setup rows ->
  Forall (fun r => run_id r = run /\ symbol r = sym) rows ->
  accounted run symbols (settle i slots st ps) (<[i := (sym, g')]> gs).
Proof.
  intros (Hsyms & Htasks & Hpassed & Hput & Hlen & Hhits & Hrows & Hkeys)
    Ht Hg Hmay Hvalid Hp Hins Hqueue Hsetups Hnew.
  assert (Hsym : sym ∈ symbols).
  { rewrite <- Hsyms. apply list_elem_of_fmap. exists (sym, g).
    split; [reflexivity |]. eapply list_elem_of_lookup_2. exact Hg. }
  assert (Htask : forall t', match t' with
                             | Acquiring _ => False
                             | Holding rest => may_do run sym rest g'
                             | Finished => True
                             end ->
                  Forall2 (task_does run) (<[i := t']> (tasks st))
                    (<[i := (sym, g')]> gs)).
  { intros t' Ht'. apply Forall2_insert; [exact Htasks |].
    split; [exact Hvalid |]. destruct t'; [destruct Ht' | exact Ht' | exact I]. }
  pose proof (sum_list_insert (fun x => Nat.b2n (has_passed x.2)) gs i
                (sym, g) (sym, g') Hg) as Hsum1.
  pose proof (sum_list_insert (fun x => length (setups_put x.2)) gs i
                (sym, g) (sym, g') Hg) as Hsum2.
  cbn [snd] in Hsum1, Hsum2.
  rewrite Hsetups, length_app, length_map in Hsum2.
  assert (Hrest :
    map fst (<[i := (sym, g')]> gs) = symbols
    /\ passed_traders ps.2
       = sum_list (map (fun x => Nat.b2n (has_passed x.2))
                     (<[i := (sym, g')]> gs))
    /\ (inserted ps.2 + length (insert_queue ps.2)
        <= sum_list (map (fun x => length (setups_put x.2))
                       (<[i := (sym, g')]> gs)))%nat
    /\ (length (scan_hits st) <= inserted ps.2)%nat
    /\ Forall (stored_of_scan run symbols) (scan_hits st)
    /\ Forall (row_of_scan run symbols) (insert_queue ps.2)
    /\ (NoDup symbols ->
        length (scan_hits st) = inserted ps.2
        /\ map stored_key (scan_hits st) ++ map primary_key (insert_queue ps.2)
           ⊆+ concat (map (keys_put run) (<[i := (sym, g')]> gs)))).
  { split; [| split; [| split; [| split; [| split; [| split]]]]].
    - change (map fst (<[i := (sym, g')]> gs))
        with (fst <$> <[i := (sym, g')]> gs).
      rewrite list_fmap_insert. cbn [fst].
      rewrite list_insert_id; [exact Hsyms |].
      rewrite list_lookup_fmap, Hg. reflexivity.
    - lia.
    - rewrite Hins, Hqueue, length_app. lia.
    - rewrite Hins. exact Hlen.
    - exact Hhits.
    - rewrite Hqueue. apply Forall_app. split; [exact Hrows |].
      apply Forall_forall. intros r Hr.
      pose proof (proj1 (Forall_forall _ _) Hnew r Hr) as [Hrun Hrsym].
      split; [exact Hrun |]. split; [rewrite Hrsym; exact Hsym |].
      destruct Hvalid as [_ Htags]. rewrite Hsetups in Htags.
      apply Forall_app in Htags as [_ Htags].
      apply (proj1 (Forall_forall _ _) Htags).
      apply list_elem_of_fmap. exists r. auto.
    - intros Hnodup. destruct (Hkeys Hnodup) as [Hsize Hsub].
      split; [rewrite Hins; exact Hsize |].
      rewrite Hqueue.
      change (map primary_key (insert_queue (vars st) ++ rows))
        with (primary_key <$> insert_queue (vars st) ++ rows).
      rewrite fmap_app, app_assoc.
      rewrite (concat_insert_perm (keys_put run) gs i (sym, g) (sym, g')
                 (map primary_key rows) Hg).
      + apply submseteq_app; [exact Hsub | reflexivity].
      + unfold keys_put. cbn [fst snd]. rewrite Hsetups, map_app.
        rewrite (keys_of_rows run sym rows Hnew). reflexivity. }
  destruct Hrest as (R1 & R2 & R3 & R4 & R5 & R6 & R7).
  unfold settle, accounted.
  destruct ps as [[u | rq k | secs k | a k] s']; cbn [fst snd] in *;
    cbn [tasks vars scan_hits];
    (split; [exact R1 |]); (split; [apply Htask; cbn; auto |]);
    auto 10.
Qed.

Lemma step_accounted run symbols (c : choice) (st st' : scan)
    (gs : list (string * progress)) :
  accounted run symbols st gs ->
  step c st = Some st' ->
  exists gs', accounted run symbols st' gs'.
Proof.
  intros Hacc. pose proof Hacc as (Hsyms & Htasks & Hrest).
  destruct c as [i answer |]; cbn.
  - unfold resume. destruct (tasks st !! i) as [t |] eqn:Hi;
      [| discriminate].
    destruct (Forall2_lookup_l _ _ _ _ _ Htasks Hi)
      as ([sym g] & Hg & Hvalid & Ht). cbn [fst snd] in Hvalid, Ht.
    destruct t as [block | rest |]; [| | discriminate].
    + destruct (semaphore st) as [| slots]; [discriminate |].
      intros [= <-]. destruct Ht as [-> Hblock].
      destruct (advance_does run sym (total_symbols st) block (vars st)
                  Not_passed Hblock Hvalid)
        as (g' & rows & H1 & H2 & H3 & H4 & H5 & H6 & H7).
      exists (<[i := (sym, g')]> gs).
      eapply settle_accounted; eauto.
    + destruct rest as [| rq k | secs k |]; try discriminate;
        intros [= <-].
      * destruct (advance_does run sym (total_symbols st) (k answer) (vars st)
                    g (Ht answer) Hvalid)
          as (g' & rows & H1 & H2 & H3 & H4 & H5 & H6 & H7).
        exists (<[i := (sym, g')]> gs).
        eapply settle_accounted; eauto.
      * destruct (advance_does run sym (total_symbols st) k (vars st)
                    g Ht Hvalid)
          as (g' & rows & H1 & H2 & H3 & H4 & H5 & H6 & H7).
        exists (<[i := (sym, g')]> gs).
        eapply settle_accounted; eauto.
  - unfold writer_turn. destruct (db_writer st); try discriminate.
    destruct Hrest as (Hpassed & Hput & Hlen & Hhits & Hrows & Hkeys).
    destruct (insert_queue (vars st)) as [| r rest] eqn:Hqueue.
    + destruct (total_symbols st <=? scanned (vars st))%nat;
        intros [= <-]; exists gs; [| exact Hacc].
      unfold accounted. cbn [tasks vars scan_hits]. rewrite Hqueue.
      auto 10.
    + apply Forall_cons in Hrows as [Hr Hrows]. cbn [length] in Hput.
      destruct (bind_row r) as [s | e] eqn:Hs; intros [= <-]; exists gs;
        unfold accounted;
        cbn [tasks vars scan_hits passed_traders inserted insert_queue];
        (split; [exact Hsyms |]); (split; [exact Htasks |]);
        (split; [exact Hpassed |]); (split; [lia |]).
      * destruct (bind_row_accepted _ _ Hs)
          as [(V1 & V2 & V3 & _) Hkey].
        split.
        { unfold insert_or_replace. rewrite length_app. cbn [length].
          pose proof (length_filter
                        (fun old => stored_key old <> stored_key s)
                        (scan_hits st)). lia. }
        split.
        { unfold insert_or_replace. apply Forall_app. split.
          - apply Forall_forall. intros old Hold.
            apply list_elem_of_filter in Hold as [_ Hold].
            exact (proj1 (Forall_forall _ _) Hhits old Hold).
          - constructor; [| constructor].
            unfold stored_of_scan. rewrite V1, V2, V3. exact Hr. }
        split; [exact Hrows |].
        intros Hnodup. destruct (Hkeys Hnodup) as [Hsize Hsub].
        assert (Hdistinct :
          NoDup (map stored_key (scan_hits st)
                 ++ map primary_key (r :: rest))).
        { apply (NoDup_of_submseteq _ _ Hsub). apply NoDup_keys_put.
          - rewrite Hsyms. exact Hnodup.
          - exact (task_does_valid _ _ _ Htasks). }
        rewrite insert_or_replace_fresh.
        -- split; [rewrite length_app; cbn [length]; lia |].
           change (map stored_key (scan_hits st ++ [s]))
             with (stored_key <$> scan_hits st ++ [s]).
           rewrite fmap_app, <- app_assoc. cbn [fmap list_fmap app].
           rewrite Hkey. exact Hsub.
        -- apply NoDup_app in Hdistinct as (_ & Hdisjoint & _).
           intros Hin. apply (Hdisjoint _ Hin). rewrite Hkey. left.
      * split; [exact Hlen |]. split; [exact Hhits |].
        split; [exact Hrows |].
        intros Hnodup. destruct (Hkeys Hnodup) as [Hsize Hsub].
        split; [exact Hsize |].
        etransitivity; [| exact Hsub].
        apply submseteq_skips_l. cbn [map]. apply submseteq_cons.
        reflexivity.
Qed.

Lemma exec_accounted run symbols (schedule : list choice) (st st' : scan) :
  (exists gs, accounted run symbols st gs) ->
  exec schedule st = Some st' ->
  exists gs', accounted run symbols st' gs'.
Proof.
  revert st. induction schedule as [| c later IH]; intros st Hacc; cbn.
  - intros [= <-]. exact Hacc.
  - destruct (step c st) as [st1 |] eqn:Hstep; [| discriminate].
    destruct Hacc as [gs Hacc].
    apply IH. exact (step_accounted _ _ _ _ _ _ Hacc Hstep).
Qed.

Lemma start_accounted (run : Z) (symbols : list string) :
  accounted run symbols (start run symbols)
    (map (fun sym => (sym, Not_passed)) symbols).
Proof.
  unfold accounted, start. cbn [tasks vars scan_hits passed_traders inserted
                                  insert_queue app length].
  assert (Hzero : forall (f : string * progress -> nat) (l : list string),
            (forall sym, f (sym, Not_passed) = 0%nat) ->
            sum_list (map f (map (fun sym => (sym, Not_passed)) l))
            = 0%nat).
  { intros f l Hf. induction l as [| sym l IH]; cbn;
      [reflexivity |]. rewrite Hf, IH. reflexivity. }
  split; [| split; [| split; [| split; [| split; [| split; [| split]]]]]].
  - rewrite map_map. cbn. apply map_id.
  - induction symbols as [| sym symbols IH]; cbn; [constructor |].
    constructor; [| exact IH].
    split; [split; cbn; constructor |]. cbn.
    split; [reflexivity | apply process_symbol_block_may_do].
  - rewrite Hzero; reflexivity.
  - rewrite Hzero; [lia | reflexivity].
  - lia.
  - constructor.
  - constructor.
  - intros _. split; [reflexivity |]. apply submseteq_nil_l.
Qed.

Lemma passed_are_started run (ts : list task)
    (gs : list (string * progress)) :
  Forall2 (task_does run) ts gs ->
  (sum_list (map (fun x => Nat.b2n (has_passed x.2)) gs)
   <= count started ts)%nat.
Proof.
  induction 1 as [| t [sym g] ts gs [_ Ht] _ IH]; cbn; [lia |].
  cbn in Ht. destruct t as [block | rest |].
  - destruct Ht as [-> _]. cbn. lia.
  - destruct (has_passed g); cbn; lia.
  - destruct (has_passed g); cbn; lia.
Qed.

Lemma count_le_length (p : task -> bool) (ts : list task) :
  (count p ts <= length ts)%nat.
Proof.
  induction ts as [| t ts IH]; cbn; [lia |]. destruct (p t); lia.
Qed.

Lemma at_most_two_setups (g : progress) :
  valid_progress g ->
  (length (setups_put g) <= 2 * Nat.b2n (has_passed g))%nat.
Proof.
  intros [Hnodup Htags]. destruct g as [| done]; cbn in *; [lia |].
  assert (Hsub : done ⊆+ [CROWD_SHORT; CROWD_LONG]).
  { apply NoDup_submseteq; [exact Hnodup |]. intros tag Htag.
    destruct (proj1 (Forall_forall _ _) Htags tag Htag) as [-> | ->].
    - left.
    - right. left. }
  apply submseteq_length in Hsub. cbn in Hsub. lia.
Qed.

Lemma rows_put_are_bounded (gs : list (string * progress)) :
  Forall (fun x => valid_progress x.2) gs ->
  (sum_list (map (fun x => length (setups_put x.2)) gs)
   <= 2 * sum_list (map (fun x => Nat.b2n (has_passed x.2)) gs))%nat.
Proof.
  induction 1 as [| x gs Hx _ IH]; cbn; [lia |].
  pose proof (at_most_two_setups x.2 Hx). lia.
Qed.

(** The counters of a scan, at every point of every schedule: an
    instrument is counted in [passed_traders] only after it was counted
    in [scanned], which never exceeds the number of instruments; the rows
    written and the rows waiting are at most two for each instrument that
    passed the ratio thresholds; and [scan_hits] never holds more rows
    than [inserted] says. *)
Theorem counters_of_a_scan (run : Z) (symbols : list string)
    (schedule : list choice) (st : scan) :
  exec schedule (start run symbols) = Some st ->
  (passed_traders (vars st) <= scanned (vars st))%nat
  /\ (scanned (vars st) <= length symbols)%nat
  /\ (inserted (vars st) + length (insert_queue (vars st))
      <= 2 * passed_traders (vars st))%nat
  /\ (length (scan_hits st) <= inserted (vars st))%nat.
Proof.
  intros Hexec.
  destruct (exec_accounted run symbols _ _ _
              (ex_intro _ _ (start_accounted run symbols)) Hexec)
    as (gs & Hsyms & Htasks & Hpassed & Hput & Hlen & _).
  destruct (exec_ok _ _ _ (start_ok run symbols) Hexec)
    as (_ & Hscanned & _).
  split; [| split; [| split]].
  - rewrite Hpassed, Hscanned. exact (passed_are_started _ _ _ Htasks).
  - rewrite Hscanned, <- Hsyms, length_map.
    rewrite <- (Forall2_length _ _ _ Htasks). apply count_le_length.
  - etransitivity; [exact Hput |]. rewrite Hpassed.
    apply rows_put_are_bounded.
    exact (task_does_valid _ _ _ Htasks).
  - exact Hlen.
Qed.

(** Whatever the schedule and the answers of the network, every row in
    [scan_hits] and every row waiting in the queue is a row of this run,
    for one of the instruments scanned, with one of the two setup
    tags. *)
Theorem rows_belong_to_the_scan (run : Z) (symbols : list string)
    (schedule : list choice) (st : scan) :
  exec schedule (start run symbols) = Some st ->
  (forall s,
      s ∈ scan_hits st ->
      db_run_id s = run /\ db_symbol s ∈ symbols
      /\ (db_setup s = "CROWD_SHORT__TOP_LONG"
          \/ db_setup s = "CROWD_LONG__TOP_SHORT"))
  /\ (forall r,
        r ∈ insert_queue (vars st) ->
        run_id r = run /\ symbol r ∈ symbols
        /\ (setup r = "CROWD_SHORT__TOP_LONG"
            \/ setup r = "CROWD_LONG__TOP_SHORT")).
Proof.
  intros Hexec.
  destruct (exec_accounted run symbols _ _ _
              (ex_intro _ _ (start_accounted run symbols)) Hexec)
    as (gs & _ & _ & _ & _ & _ & Hhits & Hrows & _).
  split.
  - intros s Hs. exact (proj1 (Forall_forall _ _) Hhits s Hs).
  - intros r Hr. exact (proj1 (Forall_forall _ _) Hrows r Hr).
Qed.

(** When the instruments of a scan are distinct, no two rows that were
    enqueued share a primary key, so [INSERT OR REPLACE] never replaces:
    at every point of every schedule [scan_hits] holds exactly
    [inserted] rows, and the number the scan returns is the number of
    rows it stored. *)
Theorem distinct_symbols_never_replace (run : Z) (symbols : list string)
    (schedule : list choice) (st : scan) :
  NoDup symbols ->
  exec schedule (start run symbols) = Some st ->
  NoDup (map stored_key (scan_hits st)
         ++ map primary_key (insert_queue (vars st)))
  /\ length (scan_hits st) = inserted (vars st)
  /\ returned st = length (scan_hits st).
Proof.
  intros Hnodup Hexec.
  destruct (exec_accounted run symbols _ _ _
              (ex_intro _ _ (start_accounted run symbols)) Hexec)
    as (gs & Hsyms & Htasks & _ & _ & _ & _ & _ & Hkeys).
  destruct (Hkeys Hnodup) as [Hlen Hsub].
  split; [| split; [exact Hlen | unfold returned; congruence]].
  apply (NoDup_of_submseteq _ _ Hsub). apply NoDup_keys_put.
  - rewrite Hsyms. exact Hnodup.
  - exact (task_does_valid _ _ _ Htasks).
Qed.

(** * The listing of the instruments *)

Lemma equals_str_field (fields : list (string * json)) (key s : string) :
  equals_str (default JNull (assoc key fields)) s = true
  <-> assoc key fields = Some (JStr s).
Proof.
  destruct (assoc key fields) as [[| | | | t | |] |]; cbn;
    try (split; intros H; discriminate H).
  rewrite String.eqb_eq. split; congruence.
Qed.

Lemma tradable_fields (fields : list (string * json)) :
  tradable fields = true
  <-> assoc "contractType" fields = Some (JStr "PERPETUAL")
      /\ assoc "quoteAsset" fields = Some (JStr "USDT")
      /\ assoc "status" fields = Some (JStr "TRADING").
Proof.
  unfold tradable. rewrite !andb_true_iff, !equals_str_field. tauto.
Qed.

Lemma for_each_returns (items : list json) (out out' : list json) :
  for_each items out = Returns out' ->
  Forall (fun s => exists fields, s = JObj fields) items
  /\ out' = out ++ omap listed_symbol items.
Proof.
  revert out. induction items as [| s items IH]; intros out; cbn.
  - intros [= <-]. rewrite app_nil_r. auto.
  - destruct s as [| | | | | | fields]; try discriminate. cbn.
    destruct (tradable fields).
    + destruct (assoc "symbol" fields) as [v |]; [| discriminate].
      intros H. apply IH in H as [Hdicts ->]. rewrite <- app_assoc.
      split; [constructor; eauto | reflexivity].
    + intros H. apply IH in H as [Hdicts ->].
      split; [constructor; eauto | reflexivity].
Qed.

Lemma for_each_raises (items : list json) (out : list json) (s : json) :
  s ∈ items -> bad_entry s -> exists e, for_each items out = Raises e.
Proof.
  intros Hs Hbad. revert out.
  induction Hs as [s items | s s' items _ IH]; intros out; cbn.
  - destruct s as [| | | | | | fields]; cbn; eauto.
    destruct Hbad as [-> ->]. eauto.
  - destruct (loop_body s' out); eauto.
Qed.

(** When [list_usdt_perp_symbols] returns, the answer was a dict whose
    "symbols" are all dicts, and the list holds, in the order of the
    answer, the "symbol" of every entry whose contract type is
    "PERPETUAL", whose quote asset is "USDT" and whose status is
    "TRADING", and nothing else. *)
Theorem listed_symbols_are_the_tradable_ones (r : http_result)
    (out : list json) :
  list_usdt_perp_symbols r = Returns out ->
  exists fields items,
    http_get r = Returns (JObj fields)
    /\ iter (default (JArr []) (assoc "symbols" fields)) = Returns items
    /\ Forall (fun s => exists fs, s = JObj fs) items
    /\ out = omap listed_symbol items
    /\ (forall v,
          v ∈ out
          <-> exists fs,
                JObj fs ∈ items
                /\ assoc "contractType" fs = Some (JStr "PERPETUAL")
                /\ assoc "quoteAsset" fs = Some (JStr "USDT")
                /\ assoc "status" fs = Some (JStr "TRADING")
                /\ assoc "symbol" fs = Some v).
Proof.
  unfold list_usdt_perp_symbols.
  destruct (http_get r) as [[| | | | | | fields] | e] eqn:Hget;
    try discriminate.
  destruct (iter (default (JArr []) (assoc "symbols" fields)))
    as [items | e] eqn:Hiter; [| discriminate].
  intros H. apply for_each_returns in H as [Hdicts ->]. cbn [app].
  exists fields, items.
  split; [reflexivity |]. split; [exact Hiter |]. split; [exact Hdicts |].
  split; [reflexivity |]. intros v. split.
  - intros Hv. apply list_elem_of_omap in Hv as (s & Hs & Hv).
    destruct s as [| | | | | | fs]; try discriminate Hv. cbn in Hv.
    destruct (tradable fs) eqn:Ht; [| discriminate Hv].
    apply tradable_fields in Ht. exists fs. tauto.
  - intros (fs & Hs & H1 & H2 & H3 & Hv).
    apply list_elem_of_omap. exists (JObj fs). split; [exact Hs |].
    cbn. rewrite (proj2 (tradable_fields fs)) by tauto. exact Hv.
Qed.

(** The listing fails as a whole.  When the GET raises, when the status
    is from 400 to 599, or when one entry of "symbols" is not a dict or
    passes the three tests without having a "symbol", the function
    raises: no list is returned, however many entries were fine. *)
Theorem listing_fails_as_a_whole (r : http_result) :
  r = Http_raises
  \/ (exists status body,
        r = Http_response status body /\ 400 <= status < 600)
  \/ (exists fields items s,
        http_get r = Returns (JObj fields)
        /\ assoc "symbols" fields = Some (JArr items)
        /\ s ∈ items /\ bad_entry s) ->
  exists e, list_usdt_perp_symbols r = Raises e.
Proof.
  unfold list_usdt_perp_symbols.
  intros [-> | [(status & body & -> & Hstatus)
               | (fields & items & s & -> & Hitems & Hs & Hbad)]].
  - cbn. eauto.
  - cbn. replace (400 <=? status) with true by lia.
    replace (status <? 600) with true by lia. cbn. eauto.
  - rewrite Hitems. cbn. exact (for_each_raises items [] s Hs Hbad).
Qed.

(** * The export *)

Lemma data_lines_app (l1 l2 : list csv_line) :
  data_lines (l1 ++ l2) = data_lines l1 ++ data_lines l2.
Proof. apply omap_app. Qed.

Lemma formatted_prefix_app (p1 p2 : list (stored * bool)) :
  formatted_prefix (p1 ++ p2)
  = if forallb (fun d => formattable d.1) p1
    then p1 ++ formatted_prefix p2
    else formatted_prefix p1.
Proof.
  induction p1 as [| d p1 IH]; [reflexivity |].
  cbn. destruct (formattable d.1); [| reflexivity].
  cbn. rewrite IH. destruct (forallb _ p1); reflexivity.
Qed.

Lemma formatted_prefix_all (plan : list (stored * bool)) :
  forallb (fun d => formattable d.1) plan = true ->
  formatted_prefix plan = plan.
Proof.
  induction plan as [| d plan IH]; [reflexivity |].
  cbn. destruct (formattable d.1); [| discriminate].
  cbn. intros H. rewrite (IH H). reflexivity.
Qed.

Lemma formatted_prefix_short (plan : list (stored * bool)) :
  forallb (fun d => formattable d.1) plan = false ->
  (length (formatted_prefix plan) < length plan)%nat.
Proof.
  induction plan as [| d plan IH]; [discriminate |].
  cbn. destruct (formattable d.1); cbn; [| lia].
  intros H. specialize (IH H). lia.
Qed.

Lemma writes_nothing : writes (fun file => (file, None)) [].
Proof. intros file. cbn. rewrite app_nil_r. auto. Qed.

Lemma writes_rows (lines : list csv_line) :
  data_lines lines = [] -> writes (writerows lines) [].
Proof.
  intros Hlines file. unfold writerows. cbn.
  rewrite data_lines_app, Hlines. auto.
Qed.

Lemma writes_signals (h : bool) (signals : list stored) :
  writes (write_signals h signals) (map (fun r => (r, h)) signals).
Proof.
  induction signals as [| r signals IH]; intros file.
  - cbn. rewrite app_nil_r. auto.
  - cbn. unfold format_row. destruct (formattable r); cbn.
    + destruct (IH (file ++ [Data r h])) as [-> ->].
      rewrite data_lines_app, <- app_assoc. auto.
    + rewrite app_nil_r. auto.
Qed.

Lemma writes_and_then (F G : list csv_line -> writing)
    (p1 p2 : list (stored * bool)) :
  writes F p1 -> writes G p2 ->
  writes (fun file => and_then (F file) G) (p1 ++ p2).
Proof.
  intros HF HG file. destruct (HF file) as [HF1 HF2].
  rewrite formatted_prefix_app, forallb_app. unfold and_then.
  destruct (F file) as [file1 [e |]]; cbn [fst snd] in HF1, HF2 |- *.
  - destruct (forallb _ p1); [discriminate HF2 |]. cbn [andb]. auto.
  - destruct (forallb _ p1) eqn:Hp1; [| discriminate HF2]. cbn [andb].
    destruct (HG file1) as [-> ->]. rewrite HF1, <- app_assoc.
    rewrite (formatted_prefix_all p1 Hp1). auto.
Qed.

Lemma writes_as (F G : list csv_line -> writing)
    (p q : list (stored * bool)) :
  writes F p -> (forall file, G file = F file) -> q = p -> writes G q.
Proof. intros HF HG -> file. rewrite HG. apply HF. Qed.

Lemma writes_section (tag : string) (lead : list csv_line)
    (signals : list stored) :
  data_lines lead = [] ->
  writes (write_section tag lead signals)
    (map (fun r => (r, true)) (highlighted signals)
     ++ map (fun r => (r, false)) (regular signals)).
Proof.
  intros Hlead. unfold write_section.
  destruct signals as [| r rest]; [apply writes_nothing |].
  remember (r :: rest) as signals eqn:E. clear E.
  assert (Htitle :
    writes (writerows (lead ++ [Rule; Section_title tag; Rule; Blank])) [])
    by (apply writes_rows; rewrite data_lines_app, Hlead; reflexivity).
  assert (Hhigh :
    writes (fun file =>
              match highlighted signals with
              | [] => (file, None)
              | _ =>
                  and_then (writerows [Confirms_title tag; Blank] file)
                    (fun file =>
                       and_then
                         (write_signals true (highlighted signals) file)
                         (writerows [Blank]))
              end)
      (map (fun r => (r, true)) (highlighted signals))).
  { destruct (highlighted signals) as [| h hs]; [apply writes_nothing |].
    apply (writes_as _ _ _ _
             (writes_and_then _ _ _ _
                (writes_rows [Confirms_title tag; Blank] eq_refl)
                (writes_and_then _ _ _ _ (writes_signals true (h :: hs))
                   (writes_rows [Blank] eq_refl))));
      [reflexivity | rewrite app_nil_r; reflexivity]. }
  assert (Hreg :
    writes (fun file =>
              match regular signals with
              | [] => (file, None)
              | _ =>
                  and_then
                    match highlighted signals with
                    | [] => (file, None)
                    | _ => writerows [Other_signals; Blank] file
                    end
                    (write_signals false (regular signals))
              end)
      (map (fun r => (r, false)) (regular signals))).
  { destruct (regular signals) as [| g gs]; [apply writes_nothing |].
    destruct (highlighted signals) as [| h hs].
    - apply (writes_as _ _ _ _
               (writes_and_then _ _ _ _ writes_nothing
                  (writes_signals false (g :: gs))));
        reflexivity.
    - apply (writes_as _ _ _ _
               (writes_and_then _ _ _ _
                  (writes_rows [Other_signals; Blank] eq_refl)
                  (writes_signals false (g :: gs))));
        reflexivity. }
  apply (writes_as _ _ _ _
           (writes_and_then _ _ _ _ Htitle
              (writes_and_then _ _ _ _ Hhigh Hreg)));
    reflexivity.
Qed.

(** The file and the outcome of [export_to_csv]. *)
Lemma export_to_csv_writes (short_signals long_signals : list stored) :
  data_lines (export_to_csv short_signals long_signals).1
  = formatted_prefix (planned short_signals long_signals)
  /\ (export_to_csv short_signals long_signals).2
     = if forallb (fun d => formattable d.1)
            (planned short_signals long_signals)
       then Returns (summary short_signals long_signals)
       else Raises (Builtin TypeError).
Proof.
  unfold export_to_csv, planned.
  destruct (writes_and_then _ _ _ _ (writes_rows [Header] eq_refl)
              (writes_and_then _ _ _ _
                 (writes_section "CROWD_SHORT__TOP_LONG" [Blank]
                    short_signals eq_refl)
                 (writes_section "CROWD_LONG__TOP_SHORT" [Blank; Blank]
                    long_signals eq_refl)) [])
    as [Hdata Hend].
  cbn [app] in Hdata, Hend. cbn [fst snd]. rewrite Hdata, Hend.
  split; [reflexivity |]. destruct (forallb _ _); reflexivity.
Qed.

Lemma highlighted_regular (signals : list stored) :
  highlighted signals ++ regular signals ≡ₚ signals.
Proof.
  unfold highlighted, regular.
  induction signals as [| r signals IH]; [reflexivity |].
  destruct (should_highlight (db_setup r) (db_funding_rate r)) eqn:Hr.
  - rewrite filter_cons_True by exact Hr.
    rewrite filter_cons_False by congruence. cbn. rewrite IH. reflexivity.
  - rewrite filter_cons_False by congruence.
    rewrite filter_cons_True by exact Hr.
    rewrite <- Permutation_middle, IH. reflexivity.
Qed.

Lemma planned_signals (short_signals long_signals : list stored) :
  map fst (planned short_signals long_signals)
  ≡ₚ short_signals ++ long_signals.
Proof.
  unfold planned. rewrite !map_app, !map_map. cbn [fst].
  rewrite !map_id, !highlighted_regular. reflexivity.
Qed.

Lemma planned_formattable (short_signals long_signals : list stored) :
  forallb (fun d => formattable d.1) (planned short_signals long_signals)
  = true
  <-> Forall (fun r => formattable r = true) (short_signals ++ long_signals).
Proof.
  rewrite <- planned_signals, Forall_fmap, forallb_forall, Forall_forall.
  split; intros H d Hd; apply H; apply list_elem_of_In; exact Hd.
Qed.

Lemma flagged_lines (h : bool) (signals : list stored) :
  filter (fun d : stored * bool => d.2 = true)
    (map (fun r => (r, h)) signals)
  = if h then map (fun r => (r, h)) signals else [].
Proof.
  induction signals as [| r signals IH]; [destruct h; reflexivity |].
  cbn [map]. destruct h.
  - rewrite filter_cons_True by reflexivity. rewrite IH. reflexivity.
  - rewrite filter_cons_False by (cbn; discriminate). exact IH.
Qed.

Lemma filter_two (P Q : stored -> Prop) `{forall r, Decision (P r)}
    `{forall r, Decision (Q r)} (table : list stored) :
  Forall (fun r => P r \/ Q r) table ->
  (forall r, P r -> Q r -> False) ->
  filter P table ++ filter Q table ≡ₚ table.
Proof.
  intros Hall Hnot.
  induction Hall as [| r table [Hr | Hr] _ IH].
  - reflexivity.
  - rewrite (filter_cons_True P) by exact Hr.
    rewrite (filter_cons_False Q) by eauto. cbn. rewrite IH. reflexivity.
  - rewrite (filter_cons_False P) by eauto.
    rewrite (filter_cons_True Q) by exact Hr.
    rewrite <- Permutation_middle, IH. reflexivity.
Qed.

(** What the CSV file holds.  [export_to_csv] sets out to write the
    highlighted short signals, the other short signals, the highlighted
    long signals and the other long signals, each group in the order of
    its query and each signal with the star [should_highlight] gives it:
    every signal of the two queries once.  The file holds them up to the
    first signal with a fraction that reads back as [None], on which
    [format_row] raises [TypeError]: the function ends there, without
    the summary.  When the six fractions of every signal are numbers,
    the file holds every signal once and the summary counts the lines
    written and the starred ones. *)
Theorem export_writes_every_signal_once
    (short_signals long_signals : list stored) :
  let out := export_to_csv short_signals long_signals in
  let plan := planned short_signals long_signals in
  data_lines out.1 = formatted_prefix plan
  /\ map fst plan ≡ₚ short_signals ++ long_signals
  /\ Forall (fun d => d.2 = should_highlight (db_setup d.1)
                            (db_funding_rate d.1)) plan
  /\ (Forall (fun r => formattable r = true) (short_signals ++ long_signals) ->
      data_lines out.1 = plan
      /\ out.2 = Returns (summary short_signals long_signals)
      /\ (summary short_signals long_signals).2 = length (data_lines out.1)
      /\ (summary short_signals long_signals).1.2
         = length (filter (fun d => d.2 = true) (data_lines out.1)))
  /\ (~ Forall (fun r => formattable r = true)
          (short_signals ++ long_signals) ->
      out.2 = Raises (Builtin TypeError)
      /\ (length (data_lines out.1)
          < length short_signals + length long_signals)%nat).
Proof.
  intros out plan. unfold out, plan.
  destruct (export_to_csv_writes short_signals long_signals) as [Hdata Hend].
  pose proof (planned_formattable short_signals long_signals) as Hall.
  pose proof (planned_signals short_signals long_signals) as Hperm.
  split; [exact Hdata |]. split; [exact Hperm |]. split; [| split].
  - unfold planned, highlighted, regular.
    rewrite !Forall_app, !Forall_fmap.
    repeat split; apply Forall_forall; intros r Hr;
      apply list_elem_of_filter in Hr as [Hr _]; cbn; congruence.
  - intros Hok. apply Hall in Hok.
    rewrite Hdata, Hend, Hok, (formatted_prefix_all _ Hok).
    split; [reflexivity |]. split; [reflexivity |]. split.
    + rewrite <- (length_map fst), Hperm, length_app. reflexivity.
    + unfold planned.
      rewrite !filter_app, !flagged_lines, !length_app, !length_map.
      cbn. lia.
  - intros Hbad.
    destruct (forallb (fun d => formattable d.1)
                (planned short_signals long_signals)) eqn:Hf;
      [exfalso; apply Hbad, Hall; reflexivity |].
    rewrite Hdata, Hend. split; [reflexivity |].
    pose proof (formatted_prefix_short _ Hf) as Hshort.
    rewrite <- (length_map fst (planned _ _)), Hperm, length_app in Hshort.
    exact Hshort.
Qed.

(** The scan and the export together.  Whatever the schedule of the
    scan, let the two queries hand back the rows of the run with the one
    and the other setup.  When the six fractions of every row of
    [scan_hits] are numbers, the signals written to the CSV file are the
    rows of [scan_hits], each once: no stored row is left out for its
    setup or its run.  When a row holds a [NULL] fraction -- the
    evaluator enqueued a NaN -- the export raises [TypeError] and the
    file lacks rows. *)
Theorem every_stored_row_is_exported (run : Z) (symbols : list string)
    (schedule : list choice) (st : scan)
    (short_signals long_signals : list stored) :
  exec schedule (start run symbols) = Some st ->
  selected run "CROWD_SHORT__TOP_LONG" (scan_hits st) short_signals ->
  selected run "CROWD_LONG__TOP_SHORT" (scan_hits st) long_signals ->
  let out := export_to_csv short_signals long_signals in
  (Forall (fun r => formattable r = true) (scan_hits st) ->
   out.2 = Returns (summary short_signals long_signals)
   /\ map fst (data_lines out.1) ≡ₚ scan_hits st)
  /\ (~ Forall (fun r => formattable r = true) (scan_hits st) ->
      out.2 = Raises (Builtin TypeError)
      /\ (length (data_lines out.1) < length (scan_hits st))%nat).
Proof.
  intros Hexec Hshort Hlong out. unfold out.
  destruct (exec_accounted run symbols _ _ _
              (ex_intro _ _ (start_accounted run symbols)) Hexec)
    as (gs & _ & _ & _ & _ & _ & Hhits & _).
  assert (Hall : short_signals ++ long_signals ≡ₚ scan_hits st).
  { unfold selected in Hshort, Hlong. rewrite Hshort, Hlong.
    apply filter_two.
    - eapply Forall_impl; [exact Hhits |].
      intros r (Hrun & _ & [Htag | Htag]); [left | right]; split; assumption.
    - intros r [_ Ha] [_ Hb]. rewrite Ha in Hb. discriminate Hb. }
  destruct (export_to_csv_writes short_signals long_signals) as [Hdata Hend].
  pose proof (planned_formattable short_signals long_signals) as Hplan.
  rewrite Hall in Hplan.
  pose proof (planned_signals short_signals long_signals) as Hperm.
  rewrite Hall in Hperm.
  rewrite Hdata, Hend. split.
  - intros Hok. apply Hplan in Hok.
    rewrite Hok, (formatted_prefix_all _ Hok). split; [reflexivity |].
    exact Hperm.
  - intros Hbad.
    destruct (forallb (fun d => formattable d.1)
                (planned short_signals long_signals)) eqn:Hf;
      [exfalso; apply Hbad, Hplan; reflexivity |].
    split; [reflexivity |].
    pose proof (formatted_prefix_short _ Hf) as Hshorter.
    rewrite <- (length_map fst (planned _ _)), Hperm in Hshorter.
    exact Hshorter.
Qed.

End Scanner.

(** * The theorems at the worked inputs *)

Lemma enqueued_rows_passed_the_gates_witness :
  let r := example_row "CROWD_SHORT__TOP_LONG" 1700000000000 5000000 in
  r ∈ rows_put (evaluation read_decimal read_int net_crowd_short 1 "AAAUSDT")
  /\ float_lt_int (oi_usdt r) MIN_OI_USDT = false
  /\ float_ge_int (oi_usdt r) MIN_OI_USDT = true.
Proof.
  intros r.
  assert (Hin : r ∈ rows_put (evaluation read_decimal read_int
                               net_crowd_short 1 "AAAUSDT"))
    by (vm_compute; constructor).
  split; [exact Hin |].
  destruct (enqueued_rows_passed_the_gates read_decimal read_int
              net_crowd_short 1 "AAAUSDT" r Hin) as (_ & _ & _ & Hlt & Hge).
  split; [exact Hlt | apply Hge; reflexivity].
Defined.

(** The counterexample to C1 as stated: an open interest that is NaN is
    not below the minimum, so the row is enqueued, yet it is not at
    least the minimum either. *)
Lemma nan_open_interest_is_enqueued :
  let r := example_row "CROWD_SHORT__TOP_LONG" 1700000000000 PrimFloat.nan in
  r ∈ rows_put (evaluation read_decimal read_int net_nan_open_interest
                  1 "AAAUSDT")
  /\ float_ge_int (oi_usdt r) MIN_OI_USDT = false.
Proof.
  split; [vm_compute; constructor | reflexivity].
Qed.

Lemma both_setups_two_rows_witness :
  exists ra rb,
    rows_put (evaluation read_decimal read_int net_both_setups 1 "AAAUSDT")
    = [ra; rb]
    /\ setup ra = "CROWD_SHORT__TOP_LONG"
    /\ setup rb = "CROWD_LONG__TOP_SHORT"
    /\ same_but_setup ra rb
    /\ (top_acc_long ra = 0.7%float /\ top_acc_short ra = 0.7%float
        /\ glob_acc_long ra = 0.7%float /\ glob_acc_short ra = 0.7%float
        /\ top_pos_long ra = 0.5%float /\ top_pos_short ra = 0.5%float).
Proof.
  apply (both_setups_two_rows read_decimal read_int net_both_setups 1
           "AAAUSDT"); vm_compute; reflexivity.
Defined.

(** The counterexample to C3 as stated: both setups hold and the
    open-interest gate is passed, but the two rows are not tagged
    "CROWD_SHORT_TOP_LONG" and "CROWD_LONG_TOP_SHORT". *)
Lemma setup_tags_are_not_the_claimed_ones :
  let rows := rows_put (evaluation read_decimal read_int net_both_setups
                          1 "AAAUSDT") in
  passed_oi_gate (evaluation read_decimal read_int net_both_setups
                    1 "AAAUSDT") = true
  /\ map setup rows = ["CROWD_SHORT__TOP_LONG"; "CROWD_LONG__TOP_SHORT"]
  /\ ~ (exists ra rb,
          rows = [ra; rb]
          /\ setup ra = "CROWD_SHORT_TOP_LONG"
          /\ setup rb = "CROWD_LONG_TOP_SHORT").
Proof.
  intros rows.
  assert (Htags : map setup rows
                  = ["CROWD_SHORT__TOP_LONG"; "CROWD_LONG__TOP_SHORT"])
    by (vm_compute; reflexivity).
  split; [vm_compute; reflexivity |]. split; [exact Htags |].
  intros (ra & rb & Hrows & Ha & Hb). rewrite Hrows in Htags. cbn in Htags.
  rewrite Ha in Htags. discriminate Htags.
Qed.


Lemma scan_terminates_witness :
  exists st,
    exec schedule_down (start read_decimal read_int 1 ["AAAUSDT"%string])
    = Some st
    /\ Forall (fun t => t = Finished) (tasks st)
    /\ scanned (vars st) = 1%nat.
Proof.
  eexists. split; [vm_compute; reflexivity |].
  split; [repeat constructor |].
  refine (proj1 (proj1 (proj2 (scan_terminates read_decimal read_int 1
                                 ["AAAUSDT"%string] schedule_down _ _)) _)).
  - vm_compute. reflexivity.
  - repeat constructor.
Defined.

Lemma nan_open_interest_aborts_the_scan :
  exists st,
    exec (schedule_writer_last read_decimal read_int net_nan_open_interest 1
            "AAAUSDT" 1)
      (start read_decimal read_int 1 ["AAAUSDT"%string]) = Some st
    /\ Forall (fun t => t = Finished) (tasks st)
    /\ scanned (vars st) = 1%nat
    /\ db_writer st = Crashed Not_null_failed
    /\ scan_hits st = []
    /\ ~ finished st
    /\ (forall c, step c st = None).
Proof.
  eexists. split; [vm_compute; reflexivity |].
  split; [repeat constructor |]. split; [reflexivity |].
  split; [reflexivity |]. split; [reflexivity |]. split.
  - intros [_ Hstopped]. discriminate Hstopped.
  - intros [[| i] answer |]; reflexivity.
Qed.

Lemma at_most_ten_in_flight_witness :
  exists st,
    exec [Resume 0 Http_raises]
         (start read_decimal read_int 1 ["AAAUSDT"%string; "BBBUSDT"%string])
    = Some st
    /\ (in_flight st <= 10)%nat.
Proof.
  eexists. split; [reflexivity |].
  refine (proj1 (at_most_ten_in_flight read_decimal read_int 1
                   ["AAAUSDT"%string; "BBBUSDT"%string]
                   [Resume 0 Http_raises] _ _)).
  reflexivity.
Defined.

Lemma missing_ratio_data_aborts_witness :
  rows_put (evaluation read_decimal read_int net_down 1 "AAAUSDT") = []
  /\ requests_sent (evaluation read_decimal read_int net_down 1 "AAAUSDT")
     = ratio_requests "AAAUSDT".
Proof.
  apply (missing_ratio_data_aborts read_decimal read_int net_down 1 "AAAUSDT").
  left. reflexivity.
Defined.

Lemma open_interest_gate_is_inclusive_witness :
  passed_cheap_filter
    (evaluation read_decimal read_int net_both_setups 1 "AAAUSDT") = true
  /\ passed_oi_gate
       (evaluation read_decimal read_int net_both_setups 1 "AAAUSDT") = true
  /\ rows_put (evaluation read_decimal read_int net_both_setups 1 "AAAUSDT")
     <> [].
Proof.
  assert (Hpass : passed_cheap_filter
                    (evaluation read_decimal read_int net_both_setups
                       1 "AAAUSDT") = true)
    by (vm_compute; reflexivity).
  split; [exact Hpass |].
  apply (proj1 (open_interest_gate_is_inclusive read_decimal read_int
                  net_both_setups 1 "AAAUSDT" Hpass) 2500000%float).
  - vm_compute. reflexivity.
  - left. reflexivity.
Defined.

Lemma timestamp_comes_from_top_account_witness :
  let r := example_row "CROWD_SHORT__TOP_LONG" 0 5000000 in
  r ∈ rows_put (evaluation read_decimal read_int net_no_timestamp 1 "AAAUSDT")
  /\ timestamp_ms r = 0.
Proof.
  intros r.
  assert (Hin : r ∈ rows_put (evaluation read_decimal read_int
                               net_no_timestamp 1 "AAAUSDT"))
    by (vm_compute; constructor).
  split; [exact Hin |].
  apply (proj1 (proj2 (timestamp_comes_from_top_account read_decimal read_int
                         net_no_timestamp 1 "AAAUSDT" r Hin))
           [("longAccount", JStr "0.30"); ("shortAccount", JStr "0.70")]);
    reflexivity.
Defined.

Lemma failed_calls_read_as_no_data_witness :
  evaluation read_decimal read_int net_down 1 "AAAUSDT"
  = evaluation read_decimal read_int
      (fun _ => Http_response 500 (Some (JStr "Internal error"))) 1 "AAAUSDT"
  /\ ((forall rq, http_get_async_result (net_down rq) = JNull) ->
      evaluation read_decimal read_int net_down 1 "AAAUSDT"
      = ratio_stage "AAAUSDT").
Proof.
  apply (failed_calls_read_as_no_data read_decimal read_int net_down
           (fun _ => Http_response 500 (Some (JStr "Internal error"))) 1
           "AAAUSDT").
  intros rq. reflexivity.
Defined.

Lemma unconvertible_timestamp_is_an_error_witness :
  errors_printed
    (evaluation read_decimal read_int net_null_timestamp 1 "AAAUSDT")
  = [("AAAUSDT"%string, TypeError)]
  /\ rows_put (evaluation read_decimal read_int net_null_timestamp 1 "AAAUSDT")
     = []
  /\ requests_sent
       (evaluation read_decimal read_int net_null_timestamp 1 "AAAUSDT")
     = ratio_requests "AAAUSDT"
  /\ passed_cheap_filter
       (evaluation read_decimal read_int net_null_timestamp 1 "AAAUSDT")
     = false.
Proof.
  apply (unconvertible_timestamp_is_an_error read_decimal read_int
           net_null_timestamp 1 "AAAUSDT" 0.3%float 0.7%float 0.3%float 0.7%float
           0.5%float 0.5%float JNull
           TypeError); vm_compute; reflexivity.
Defined.

Lemma no_setup_ends_the_evaluation_witness :
  evaluation read_decimal read_int net_no_setup 1 "AAAUSDT"
  = ratio_stage "AAAUSDT"
  /\ requests_sent (evaluation read_decimal read_int net_no_setup 1 "AAAUSDT")
     = ratio_requests "AAAUSDT"
  /\ rows_put (evaluation read_decimal read_int net_no_setup 1 "AAAUSDT") = []
  /\ sleeps (evaluation read_decimal read_int net_no_setup 1 "AAAUSDT") = [].
Proof.
  apply (no_setup_ends_the_evaluation read_decimal read_int net_no_setup 1
           "AAAUSDT" 0.5%float 0.5%float 0.5%float 0.5%float 0.5%float
           0.5%float 1700000000000).
  - split; [vm_compute; auto |]. split; [vm_compute; auto 10 |].
    exists (JInt 1700000000000). vm_compute. auto.
  - vm_compute. reflexivity.
  - vm_compute. reflexivity.
Defined.

Lemma admitted_instrument_yields_its_hits_witness :
  rows_put (evaluation read_decimal read_int net_crowd_short 1 "AAAUSDT")
  = hits read_decimal net_crowd_short 1 "AAAUSDT" 1700000000000
      5000000%float 0.3%float 0.7%float 0.3%float 0.7%float 0.5%float
      0.5%float.
Proof.
  apply (admitted_instrument_yields_its_hits read_decimal read_int
           net_crowd_short 1 "AAAUSDT").
  - split; [vm_compute; auto |]. split; [vm_compute; auto 10 |].
    exists (JInt 1700000000000). vm_compute. auto.
  - vm_compute. reflexivity.
  - vm_compute. reflexivity.
Defined.

Lemma counters_of_a_scan_witness :
  exists st,
    exec (schedule_writer_last read_decimal read_int net_both_setups 1
            "AAAUSDT" 3)
      (start read_decimal read_int 1 ["AAAUSDT"%string]) = Some st
    /\ (passed_traders (vars st) <= scanned (vars st))%nat
    /\ (scanned (vars st) <= 1)%nat
    /\ (inserted (vars st) + length (insert_queue (vars st))
        <= 2 * passed_traders (vars st))%nat
    /\ (length (scan_hits st) <= inserted (vars st))%nat.
Proof.
  eexists. split; [vm_compute; reflexivity |].
  apply (counters_of_a_scan read_decimal read_int 1 ["AAAUSDT"%string]
           (schedule_writer_last read_decimal read_int net_both_setups 1
              "AAAUSDT" 3)).
  vm_compute. reflexivity.
Defined.

Lemma rows_belong_to_the_scan_witness :
  exists st,
    exec (schedule_writer_last read_decimal read_int net_both_setups 1
            "AAAUSDT" 1)
      (start read_decimal read_int 1 ["AAAUSDT"%string]) = Some st
    /\ length (scan_hits st) = 1%nat
    /\ length (insert_queue (vars st)) = 1%nat
    /\ (forall s,
          s ∈ scan_hits st ->
          db_run_id s = 1 /\ db_symbol s ∈ ["AAAUSDT"%string]
          /\ (db_setup s = "CROWD_SHORT__TOP_LONG"%string
              \/ db_setup s = "CROWD_LONG__TOP_SHORT"%string))
    /\ (forall r,
          r ∈ insert_queue (vars st) ->
          run_id r = 1 /\ symbol r ∈ ["AAAUSDT"%string]
          /\ (setup r = "CROWD_SHORT__TOP_LONG"%string
              \/ setup r = "CROWD_LONG__TOP_SHORT"%string)).
Proof.
  eexists. split; [vm_compute; reflexivity |].
  split; [reflexivity |]. split; [reflexivity |].
  apply (rows_belong_to_the_scan read_decimal read_int 1 ["AAAUSDT"%string]
           (schedule_writer_last read_decimal read_int net_both_setups 1
              "AAAUSDT" 1)).
  vm_compute. reflexivity.
Defined.

Lemma distinct_symbols_never_replace_witness :
  exists st,
    exec (schedule_writer_last read_decimal read_int net_both_setups 1
            "AAAUSDT" 3)
      (start read_decimal read_int 1 ["AAAUSDT"%string]) = Some st
    /\ NoDup (map stored_key (scan_hits st)
              ++ map primary_key (insert_queue (vars st)))
    /\ length (scan_hits st) = inserted (vars st)
    /\ returned st = length (scan_hits st).
Proof.
  eexists. split; [vm_compute; reflexivity |].
  apply (distinct_symbols_never_replace read_decimal read_int 1
           ["AAAUSDT"%string]
           (schedule_writer_last read_decimal read_int net_both_setups 1
              "AAAUSDT" 3)).
  - repeat constructor. apply not_elem_of_nil.
  - vm_compute. reflexivity.
Defined.

Lemma unreadable_premium_field_blanks_both_columns_witness :
  let r := example_row "CROWD_SHORT__TOP_LONG" 1700000000000 5000000 in
  r ∈ rows_put
        (evaluation read_decimal read_int net_null_mark_price 1 "AAAUSDT")
  /\ funding_rate r = None /\ current_price r = None.
Proof.
  intros r.
  assert (Hin : r ∈ rows_put (evaluation read_decimal read_int
                               net_null_mark_price 1 "AAAUSDT"))
    by (vm_compute; constructor).
  split; [exact Hin |].
  apply (unreadable_premium_field_blanks_both_columns read_decimal read_int
           net_null_mark_price 1 "AAAUSDT" r
           [("symbol", JStr "AAAUSDT"); ("markPrice", JNull);
            ("lastFundingRate", JStr "0.0001")]
           "markPrice" JNull TypeError Hin);
    [vm_compute; reflexivity | right; reflexivity | reflexivity
    | reflexivity].
Defined.

Lemma listed_symbols_are_the_tradable_ones_witness :
  list_usdt_perp_symbols exchange_info
  = Returns [JStr "AAAUSDT"; JStr "DDDUSDT"]
  /\ exists fields items,
       http_get exchange_info = Returns (JObj fields)
       /\ iter (default (JArr []) (assoc "symbols" fields)) = Returns items
       /\ Forall (fun s => exists fs, s = JObj fs) items
       /\ [JStr "AAAUSDT"; JStr "DDDUSDT"] = omap listed_symbol items
       /\ (forall v,
             v ∈ [JStr "AAAUSDT"; JStr "DDDUSDT"]
             <-> exists fs,
                   JObj fs ∈ items
                   /\ assoc "contractType" fs = Some (JStr "PERPETUAL")
                   /\ assoc "quoteAsset" fs = Some (JStr "USDT")
                   /\ assoc "status" fs = Some (JStr "TRADING")
                   /\ assoc "symbol" fs = Some v).
Proof.
  split; [reflexivity |].
  apply (listed_symbols_are_the_tradable_ones exchange_info
           [JStr "AAAUSDT"; JStr "DDDUSDT"]).
  reflexivity.
Defined.

Lemma listing_fails_as_a_whole_witness :
  exists e, list_usdt_perp_symbols exchange_info_without_symbol = Raises e.
Proof.
  apply (listing_fails_as_a_whole exchange_info_without_symbol).
  right. right.
  exists [("symbols",
           JArr [instrument "AAAUSDT" "PERPETUAL" "USDT" "TRADING";
                 JObj [("contractType", JStr "PERPETUAL");
                       ("quoteAsset", JStr "USDT");
                       ("status", JStr "TRADING")]])],
    [instrument "AAAUSDT" "PERPETUAL" "USDT" "TRADING";
     JObj [("contractType", JStr "PERPETUAL"); ("quoteAsset", JStr "USDT");
           ("status", JStr "TRADING")]],
    (JObj [("contractType", JStr "PERPETUAL"); ("quoteAsset", JStr "USDT");
           ("status", JStr "TRADING")]).
  split; [reflexivity |]. split; [reflexivity |].
  split; [right; left | split; reflexivity].
Defined.

Lemma every_stored_row_is_exported_witness :
  exists st short_signals long_signals,
    exec (schedule_writer_last read_decimal read_int net_both_setups 1
            "AAAUSDT" 3)
      (start read_decimal read_int 1 ["AAAUSDT"%string]) = Some st
    /\ length (scan_hits st) = 2%nat
    /\ (export_to_csv short_signals long_signals).2
       = Returns (summary short_signals long_signals)
    /\ map fst (data_lines (export_to_csv short_signals long_signals).1)
       ≡ₚ scan_hits st.
Proof.
  eexists _, _, _. split; [vm_compute; reflexivity |].
  split; [reflexivity |].
  refine (proj1 (every_stored_row_is_exported read_decimal read_int 1
                   ["AAAUSDT"%string]
                   (schedule_writer_last read_decimal read_int
                      net_both_setups 1 "AAAUSDT" 3) _ _ _ _ _ _) _).
  - vm_compute. reflexivity.
  - unfold selected. reflexivity.
  - unfold selected. reflexivity.
  - repeat constructor.
Defined.
